(** * A shallow embedding of promptflow's executor, tracer, cache and
    local-storage paths, with the properties of its specification. *)

From Stdlib Require Import String Ascii ZArith List Bool Lia.
From Stdlib Require Import DecimalZ.
From Stdlib Require DecimalPos DecimalFacts.
From Stdlib Require Import Sorting.Permutation Sorting.Sorted Sorting.Mergesort.
Import ListNotations.
Open Scope Z_scope.
Set Warnings "-register-all".

(* ------------------------------------------------------------------ *)
(** ** Python string helpers *)

Module Str.

Local Open Scope string_scope.

(** [str(n)] for a Python int: the decimal digits, with a leading [-]. *)
Fixpoint string_of_uint (u : Decimal.uint) : string :=
  match u with
  | Decimal.Nil => ""
  | Decimal.D0 u => String "0" (string_of_uint u)
  | Decimal.D1 u => String "1" (string_of_uint u)
  | Decimal.D2 u => String "2" (string_of_uint u)
  | Decimal.D3 u => String "3" (string_of_uint u)
  | Decimal.D4 u => String "4" (string_of_uint u)
  | Decimal.D5 u => String "5" (string_of_uint u)
  | Decimal.D6 u => String "6" (string_of_uint u)
  | Decimal.D7 u => String "7" (string_of_uint u)
  | Decimal.D8 u => String "8" (string_of_uint u)
  | Decimal.D9 u => String "9" (string_of_uint u)
  end.

Definition str_Z (z : Z) : string :=
  match Z.to_int z with
  | Decimal.Pos u => string_of_uint u
  | Decimal.Neg u => String "-" (string_of_uint u)
  end.

Fixpoint parse_uint (s : string) : option Decimal.uint :=
  match s with
  | EmptyString => Some Decimal.Nil
  | String c s' =>
      match parse_uint s' with
      | None => None
      | Some u =>
          if Ascii.eqb c "0" then Some (Decimal.D0 u)
          else if Ascii.eqb c "1" then Some (Decimal.D1 u)
          else if Ascii.eqb c "2" then Some (Decimal.D2 u)
          else if Ascii.eqb c "3" then Some (Decimal.D3 u)
          else if Ascii.eqb c "4" then Some (Decimal.D4 u)
          else if Ascii.eqb c "5" then Some (Decimal.D5 u)
          else if Ascii.eqb c "6" then Some (Decimal.D6 u)
          else if Ascii.eqb c "7" then Some (Decimal.D7 u)
          else if Ascii.eqb c "8" then Some (Decimal.D8 u)
          else if Ascii.eqb c "9" then Some (Decimal.D9 u)
          else None
      end
  end.

(** [int(s)] on what [str] produces. *)
Definition parse_Z (s : string) : option Z :=
  match s with
  | String "-" s' =>
      match parse_uint s' with Some u => Some (Z.of_int (Decimal.Neg u)) | None => None end
  | _ => match parse_uint s with Some u => Some (Z.of_int (Decimal.Pos u)) | None => None end
  end.

Definition is_digit (c : ascii) : bool :=
  let n := nat_of_ascii c in (48 <=? n)%nat && (n <=? 57)%nat.

Definition is_hex (c : ascii) : bool :=
  is_digit c || (let n := nat_of_ascii c in (97 <=? n)%nat && (n <=? 102)%nat).

Fixpoint all_chars (p : ascii -> bool) (s : string) : bool :=
  match s with
  | EmptyString => true
  | String c s' => p c && all_chars p s'
  end.

(** [str(uuid.uuid4())]: 8-4-4-4-12 lowercase hexadecimal groups. *)
Fixpoint is_uuid_from (i : nat) (s : string) : bool :=
  match s with
  | EmptyString => Nat.eqb i 36
  | String c s' =>
      (if existsb (Nat.eqb i) [8; 13; 18; 23]%nat then Ascii.eqb c "-" else is_hex c)
      && is_uuid_from (S i) s'
  end.

Definition is_uuid (s : string) : bool := is_uuid_from 0 s.

Definition no_underscore (s : string) : bool := all_chars (fun c => negb (Ascii.eqb c "_")) s.

(** Python [str.endswith]. *)
Definition endswith (s suffix : string) : bool :=
  let n := String.length s in
  let k := String.length suffix in
  (k <=? n)%nat && String.eqb (substring (n - k) k s) suffix.

(** Python [str.rstrip("/")]. *)
Fixpoint rstrip_slash_rev (l : list ascii) : list ascii :=
  match l with
  | c :: l' => if Ascii.eqb c "/" then rstrip_slash_rev l' else l
  | [] => []
  end.

Definition rstrip_slash (s : string) : string :=
  string_of_list_ascii (rev (rstrip_slash_rev (rev (list_ascii_of_string s)))).

(** Python [str.replace(pat, rep)] for a non-empty [pat]: every
    non-overlapping occurrence, scanning left to right. *)
Fixpoint replace_fuel (fuel : nat) (pat rep s : string) : string :=
  match fuel with
  | O => s
  | S fuel' =>
      match s with
      | EmptyString => EmptyString
      | String c s' =>
          if String.prefix pat s
          then rep ++ replace_fuel fuel' pat rep
                        (substring (String.length pat) (String.length s - String.length pat) s)
          else String c (replace_fuel fuel' pat rep s')
      end
  end.

Definition replace (s pat rep : string) : string :=
  replace_fuel (String.length s) pat rep s.

(** Python [str.zfill(width)]: zeros after the sign, up to [width]. *)
Definition zfill (s : string) (width : nat) : string :=
  let pad := string_of_list_ascii (repeat "0"%char (width - String.length s)) in
  match s with
  | String "-" s' => String "-" (pad ++ s')
  | _ => pad ++ s
  end.

(** Python [str.split("/")]. *)
Fixpoint split_slash_aux (cur : string) (s : string) : list string :=
  match s with
  | EmptyString => [cur]
  | String c s' =>
      if Ascii.eqb c "/" then cur :: split_slash_aux "" s'
      else split_slash_aux (cur ++ String c "") s'
  end.

Definition split_slash (s : string) : list string := split_slash_aux "" s.

(** [sep.join(parts)]. *)
Fixpoint join (sep : string) (l : list string) : string :=
  match l with
  | [] => ""
  | [x] => x
  | x :: l' => x ++ sep ++ join sep l'
  end.

Definition join_slash : list string -> string := join "/".

End Str.

(* ------------------------------------------------------------------ *)
(** ** JSON values, as produced by [json.dumps] / read by [json.load] *)

Inductive json : Type :=
| JNull
| JBool (b : bool)
| JNum (n : Z)
| JStr (s : string)
| JArr (l : list json)
| JObj (l : list (string * json)).

Module Json.

Local Open Scope string_scope.

(** The double-quote character. *)
Definition dq : string := String (ascii_of_nat 34) EmptyString.

Fixpoint render (j : json) : string :=
  match j with
  | JNull => "null"
  | JBool true => "true"
  | JBool false => "false"
  | JNum n => Str.str_Z n
  | JStr s => dq ++ s ++ dq
  | JArr l => "[" ++ Str.join "," (map render l) ++ "]"
  | JObj l => "{" ++ Str.join "," (map (fun kv => dq ++ fst kv ++ dq ++ ":" ++ render (snd kv)) l) ++ "}"
  end.

(** [dict.get(key, default)]. *)
Fixpoint get (d : list (string * json)) (key : string) (default : json) : json :=
  match d with
  | [] => default
  | (k, v) :: d' => if String.eqb k key then v else get d' key default
  end.

End Json.

(* ------------------------------------------------------------------ *)
(** ** promptflow/contracts/flow.py: [Node] (the fields the executor reads) *)

Record Node := mkNode {
  node_name : string;
  aggregation : bool;
  enable_cache : bool
}.

(* ------------------------------------------------------------------ *)
(** ** promptflow/executor/_flow_nodes_scheduler.py *)

Module FlowNodesScheduler.

Definition RUN_FLOW_NODES_LINEARLY : Z := 1.
Definition DEFAULT_CONCURRENCY_BULK : Z := 2.
Definition DEFAULT_CONCURRENCY_FLOW : Z := 16.

Record t := mk {
  _node_concurrency : Z;
  _nodes : list Node
}.

(** [__init__] *)
Definition init (nodes_from_invoker : list Node) (node_concurrency : Z) : t :=
  mk (Z.min node_concurrency DEFAULT_CONCURRENCY_FLOW) nodes_from_invoker.

(** The [max_workers] argument [execute] hands to [ThreadPoolExecutor]. *)
Definition execute_max_workers (self : t) : Z := self.(_node_concurrency).

End FlowNodesScheduler.

(* ------------------------------------------------------------------ *)
(** ** promptflow/contracts/run_info.py: [Status] *)

Inductive Status :=
| Running | Preparing | Completed | Failed | Bypassed | Canceled | NotStarted | CancelRequested.

Definition Status_value (s : Status) : string :=
  match s with
  | Running => "Running" | Preparing => "Preparing" | Completed => "Completed"
  | Failed => "Failed" | Bypassed => "Bypassed" | Canceled => "Canceled"
  | NotStarted => "NotStarted" | CancelRequested => "CancelRequested"
  end%string.

(** [Status(value)]: [None] stands for the [ValueError] of an unknown value. *)
Definition Status_of_value (v : string) : option Status :=
  find (fun s => String.eqb (Status_value s) v)
       [Running; Preparing; Completed; Failed; Bypassed; Canceled; NotStarted; CancelRequested].

(** [Status.is_terminated] *)
Definition is_terminated (status : Status) : bool :=
  existsb (String.eqb (Status_value status))
          (map Status_value [Completed; Failed; Bypassed; Canceled]).

(** [Status.is_terminated] called with a string. *)
Definition is_terminated_value (status : string) : bool :=
  existsb (String.eqb status) (map Status_value [Completed; Failed; Bypassed; Canceled]).

(* ------------------------------------------------------------------ *)
(** ** The cache manager.

    Modelled from the spec: promptflow/_core/cache_manager.py is not part
    of the sources; §3 and §4.3 describe it.  [calculate_cache_info] gives
    no info for a non-deterministic tool, and otherwise a [hash_id] over
    the flow id, the tool identity and the canonical inputs (the hash is
    taken collision free: the canonical string itself);
    [get_cache_result] looks the [hash_id] up in the key/value store and
    [persist_result] records [hash_id -> {run_id, flow_run_id, result}]. *)

Module CacheManager.

Local Open Scope string_scope.

Record CacheInfo := mkCacheInfo { hash_id : option string; cache_string : string }.

Record CacheResult := mkCacheResult {
  hit_cache : bool;
  result : json;
  cached_run_id : option string;
  cached_flow_run_id : option string
}.

Record CacheRecord := mkCacheRecord {
  rec_run_id : string;
  rec_flow_run_id : string;
  rec_result : json
}.

Definition store := list (string * CacheRecord).

(** A tool callable: its identity, whether its inputs make it cacheable,
    and its body, which returns a value or raises (the message). *)
Record Tool := mkTool {
  tool_id : string;
  deterministic : bool;
  call : list (string * json) -> json + string
}.

Definition calculate_cache_info (flow_id : string) (f : Tool) (kwargs : list (string * json))
  : option CacheInfo :=
  if deterministic f then
    let s := flow_id ++ ":" ++ tool_id f ++ ":" ++ Json.render (JObj kwargs) in
    Some (mkCacheInfo (Some s) s)
  else None.

Fixpoint lookup (st : store) (h : string) : option CacheRecord :=
  match st with
  | [] => None
  | (k, r) :: st' => if String.eqb k h then Some r else lookup st' h
  end.

Definition miss : CacheResult := mkCacheResult false JNull None None.

Definition get_cache_result (st : store) (info : CacheInfo) : CacheResult :=
  match hash_id info with
  | Some h =>
      match lookup st h with
      | Some r => mkCacheResult true (rec_result r) (Some (rec_run_id r)) (Some (rec_flow_run_id r))
      | None => miss
      end
  | None => miss
  end.

Definition persist_result (st : store) (run_id flow_run_id : string) (output : json)
  (info : CacheInfo) : store :=
  match hash_id info with
  | Some h => (h, mkCacheRecord run_id flow_run_id output) :: st
  | None => st
  end.

End CacheManager.

(* ------------------------------------------------------------------ *)
(** ** promptflow/_core/flow_execution_context.py *)

Module FlowExecutionContext.

Local Open Scope string_scope.

Record t := mk {
  _name : string;
  _run_id : string;
  _flow_id : string;
  _line_number : option Z;
  _variant_id : string
}.

(** [_generate_node_run_id]; [uuid4] is the value [str(uuid.uuid4())]
    drawn by the call (only used when the line number is [None]). *)
Definition _generate_node_run_id (self : t) (node : Node) (uuid4 : string) : string :=
  if aggregation node then
    self.(_run_id) ++ "_" ++ node_name node ++ "_reduce"
  else
    match self.(_line_number) with
    | None => self.(_run_id) ++ "_" ++ node_name node ++ "_" ++ uuid4
    | Some line => self.(_run_id) ++ "_" ++ node_name node ++ "_" ++ Str.str_Z line
    end.

(** The node run record kept by the run tracker (the fields these paths set). *)
Record NodeRunInfo := mkNodeRunInfo {
  nr_node : string;
  nr_run_id : string;
  nr_flow_run_id : string;
  nr_parent_run_id : string;
  nr_status : Status;
  nr_output : json;
  nr_error : option string;
  nr_index : option Z;
  nr_cached_run_id : option string;
  nr_cached_flow_run_id : option string
}.

(** What [invoke_tool] touches: the cache store, the tool calls made
    (by node name, latest first) and the node runs persisted. *)
Record ExecState := mkExecState {
  es_cache : CacheManager.store;
  es_tool_calls : list string;
  es_persisted : list NodeRunInfo
}.

Inductive Outcome := Returned (v : json) | Raised (e : string).

(** [_prepare_node_run] with [RunTracker.start_node_run]. *)
Definition _prepare_node_run (self : t) (node : Node) (uuid4 : string) : NodeRunInfo :=
  let node_run_id := _generate_node_run_id self node uuid4 in
  let parent_run_id :=
    match self.(_line_number) with
    | Some l => self.(_run_id) ++ "_" ++ Str.str_Z l
    | None => self.(_run_id)
    end in
  mkNodeRunInfo (node_name node) node_run_id self.(_run_id) parent_run_id Running JNull None
                self.(_line_number) None None.

(** [RunTracker.end_run] with a result, and with an exception. *)
Definition end_run_result (ri : NodeRunInfo) (v : json) : NodeRunInfo :=
  mkNodeRunInfo ri.(nr_node) ri.(nr_run_id) ri.(nr_flow_run_id) ri.(nr_parent_run_id) Completed v
                None ri.(nr_index) ri.(nr_cached_run_id) ri.(nr_cached_flow_run_id).

Definition end_run_ex (ri : NodeRunInfo) (e : string) : NodeRunInfo :=
  mkNodeRunInfo ri.(nr_node) ri.(nr_run_id) ri.(nr_flow_run_id) ri.(nr_parent_run_id) Failed
                ri.(nr_output) (Some e) ri.(nr_index) ri.(nr_cached_run_id) ri.(nr_cached_flow_run_id).

Definition set_cached_ids (ri : NodeRunInfo) (cr : CacheManager.CacheResult) : NodeRunInfo :=
  mkNodeRunInfo ri.(nr_node) ri.(nr_run_id) ri.(nr_flow_run_id) ri.(nr_parent_run_id) ri.(nr_status)
                ri.(nr_output) ri.(nr_error) ri.(nr_index)
                (CacheManager.cached_run_id cr) (CacheManager.cached_flow_run_id cr).

(** [_persist_cache]: record only when the [hash_id] is a non-empty string. *)
Definition _persist_cache (cache_info : option CacheManager.CacheInfo) (run_info : NodeRunInfo)
  (st : CacheManager.store) : CacheManager.store :=
  match cache_info with
  | Some ci =>
      match CacheManager.hash_id ci with
      | Some h =>
          if (0 <? String.length h)%nat
          then CacheManager.persist_result st run_info.(nr_run_id) run_info.(nr_flow_run_id)
                                           run_info.(nr_output) ci
          else st
      | None => st
      end
  | None => st
  end.

(** [invoke_tool]; tracing and logging leave this state alone. *)
Definition invoke_tool (self : t) (node : Node) (f : CacheManager.Tool)
  (kwargs : list (string * json)) (uuid4 : string) (st : ExecState) : Outcome * ExecState :=
  let run_info := _prepare_node_run self node uuid4 in
  let cache_info := CacheManager.calculate_cache_info self.(_flow_id) f kwargs in
  let hit :=
    if enable_cache node then
      match cache_info with
      | Some ci =>
          let cr := CacheManager.get_cache_result st.(es_cache) ci in
          if CacheManager.hit_cache cr then Some cr else None
      | None => None
      end
    else None in
  match hit with
  | Some cr =>
      let ri := end_run_result (set_cached_ids run_info cr) (CacheManager.result cr) in
      (Returned (CacheManager.result cr),
       mkExecState st.(es_cache) st.(es_tool_calls) (ri :: st.(es_persisted)))
  | None =>
      let calls := node_name node :: st.(es_tool_calls) in
      match CacheManager.call f kwargs with
      | inl v =>
          let ri := end_run_result run_info v in
          let cache' := if enable_cache node then _persist_cache cache_info ri st.(es_cache)
                        else st.(es_cache) in
          (Returned v, mkExecState cache' calls (ri :: st.(es_persisted)))
      | inr e =>
          (Raised e, mkExecState st.(es_cache) calls (end_run_ex run_info e :: st.(es_persisted)))
      end
  end.

End FlowExecutionContext.


(* ------------------------------------------------------------------ *)
(** ** promptflow/_core/tracer.py

    Traces are Python objects shared between the root list, the stack
    and their parents' [children] lists, so they live in a heap and the
    tracer holds references (heap indices).  [datetime.utcnow().timestamp()]
    is the [now] argument of each operation.  [to_json] serializes the
    trace dataclasses through [dataclass_serializer.serialize], which is
    not in the sources: it is rendered field by field, children nested. *)

Module Tracer.

Local Open Scope string_scope.

(** promptflow/contracts/trace.py: [Trace] *)
Record Trace := mkTrace {
  name : string;
  type_ : string;
  start_time : Z;
  end_time : option Z;
  inputs : list (string * json);
  output : option json;
  error : option json;
  children : option (list nat);
  node_name : option string
}.

Record Tracer := mkTracer {
  _run_id : string;
  _node_name : option string;
  _traces : list nat;
  _trace_stack : list nat
}.

(** The thread's context: the active tracer, and the trace heap. *)
Record State := mkState {
  active : option Tracer;
  heap : list Trace
}.

Fixpoint set_nth {A} (l : list A) (i : nat) (x : A) : list A :=
  match l, i with
  | [], _ => []
  | _ :: l', O => x :: l'
  | y :: l', S i' => y :: set_nth l' i' x
  end.

Definition update_trace (h : list Trace) (i : nat) (f : Trace -> Trace) : list Trace :=
  match nth_error h i with
  | Some tr => set_nth h i (f tr)
  | None => h
  end.

Definition with_children (tr : Trace) (c : option (list nat)) : Trace :=
  mkTrace tr.(name) tr.(type_) tr.(start_time) tr.(end_time) tr.(inputs) tr.(output) tr.(error)
          c tr.(node_name).

Definition with_node_name (tr : Trace) (n : option string) : Trace :=
  mkTrace tr.(name) tr.(type_) tr.(start_time) tr.(end_time) tr.(inputs) tr.(output) tr.(error)
          tr.(children) n.

Definition with_start_time (tr : Trace) (t : Z) : Trace :=
  mkTrace tr.(name) tr.(type_) t tr.(end_time) tr.(inputs) tr.(output) tr.(error)
          tr.(children) tr.(node_name).

Definition with_end_time (tr : Trace) (t : Z) : Trace :=
  mkTrace tr.(name) tr.(type_) tr.(start_time) (Some t) tr.(inputs) tr.(output) tr.(error)
          tr.(children) tr.(node_name).

Definition with_output (tr : Trace) (o : json) : Trace :=
  mkTrace tr.(name) tr.(type_) tr.(start_time) tr.(end_time) tr.(inputs) (Some o) tr.(error)
          tr.(children) tr.(node_name).

Definition with_error (tr : Trace) (e : json) : Trace :=
  mkTrace tr.(name) tr.(type_) tr.(start_time) tr.(end_time) tr.(inputs) tr.(output) (Some e)
          tr.(children) tr.(node_name).

Definition last_opt {A} (l : list A) : option A :=
  match rev l with [] => None | x :: _ => Some x end.

(** [start_tracing]: a second activation only logs a warning. *)
Definition start_tracing (run_id : string) (node_name : option string) (st : State) : State :=
  match st.(active) with
  | Some _ => st
  | None => mkState (Some (mkTracer run_id node_name [] [])) st.(heap)
  end.

(** [to_json]: serialize the root traces. *)
Fixpoint serialize_trace (fuel : nat) (h : list Trace) (i : nat) : json :=
  match fuel with
  | O => JNull
  | S fuel' =>
      match nth_error h i with
      | None => JNull
      | Some tr =>
          JObj [("name", JStr tr.(name)); ("type", JStr tr.(type_));
                ("inputs", JObj tr.(inputs));
                ("output", match tr.(output) with Some o => o | None => JNull end);
                ("start_time", JNum tr.(start_time));
                ("end_time", match tr.(end_time) with Some t => JNum t | None => JNull end);
                ("error", match tr.(error) with Some e => e | None => JNull end);
                ("children", match tr.(children) with
                             | Some c => JArr (map (serialize_trace fuel' h) c)
                             | None => JNull end);
                ("node_name", match tr.(node_name) with Some n => JStr n | None => JNull end)]
      end
  end.

Definition to_json (h : list Trace) (roots : list nat) : list json :=
  map (serialize_trace (S (length h)) h) roots.

(** [end_tracing(run_id)]: returns the serialized roots and deactivates,
    unless no tracer is active or another run's tracer is. *)
Definition end_tracing (run_id : option string) (st : State) : list json * State :=
  match st.(active) with
  | None => ([], st)
  | Some tr =>
      match run_id with
      | Some r => if negb (String.eqb tr.(_run_id) r) then ([], st)
                  else (to_json st.(heap) tr.(_traces), mkState None st.(heap))
      | None => (to_json st.(heap) tr.(_traces), mkState None st.(heap))
      end
  end.

(** [_push]: the trace object is allocated at the next heap index.  The
    inputs are already JSON, which [to_serializable] leaves as they are. *)
Definition _push (self : Tracer) (trace : Trace) (now : Z) (h : list Trace) : Tracer * list Trace :=
  let trace := if Z.eqb trace.(start_time) 0 then with_start_time trace now else trace in
  let id := length h in
  match last_opt self.(_trace_stack) with
  | None =>
      let h' := (h ++ [with_node_name trace self.(_node_name)])%list in
      (mkTracer self.(_run_id) self.(_node_name) (self.(_traces) ++ [id])%list
                (self.(_trace_stack) ++ [id])%list, h')
  | Some top =>
      let h1 := (h ++ [trace])%list in
      let h' := update_trace h1 top (fun p =>
                  with_children p (Some ((match p.(children) with Some c => c | None => [] end) ++ [id])%list)) in
      (mkTracer self.(_run_id) self.(_node_name) self.(_traces) (self.(_trace_stack) ++ [id])%list, h')
  end.

(** [push]: no active tracer only logs a warning. *)
Definition push (trace : Trace) (now : Z) (st : State) : State :=
  match st.(active) with
  | None => st
  | Some obj => let (obj', h') := _push obj trace now st.(heap) in mkState (Some obj') h'
  end.

(** [_format_error] *)
Definition _format_error (message type_name : string) : json :=
  JObj [("message", JStr message); ("type", JStr type_name)].

(** [pop(output, error)]: [None] stands for the exception raised with no
    active tracer ([AttributeError]) or an empty stack ([IndexError]).
    The output is not a generator here. *)
Definition pop (output : option json) (err : option (string * string)) (now : Z) (st : State)
  : option State :=
  match st.(active) with
  | None => None
  | Some obj =>
      match last_opt obj.(_trace_stack) with
      | None => None
      | Some top =>
          let h1 := match output with
                    | Some o => update_trace st.(heap) top (fun t => with_output t o)
                    | None => st.(heap) end in
          let h2 := match err with
                    | Some (m, ty) => update_trace h1 top (fun t => with_error t (_format_error m ty))
                    | None => h1 end in
          let h3 := update_trace h2 top (fun t => with_end_time t now) in
          Some (mkState (Some (mkTracer obj.(_run_id) obj.(_node_name) obj.(_traces)
                                        (removelast obj.(_trace_stack)))) h3)
      end
  end.

End Tracer.

(* ------------------------------------------------------------------ *)
(** ** Datetimes: [datetime.isoformat] and [dateutil.parser.parse]

    A [datetime.datetime] is its fields and, when aware, its [utcoffset()]
    in microseconds. *)

Module DateTime.

Local Open Scope string_scope.

Record datetime := mkDatetime {
  year : Z;
  month : Z;
  day : Z;
  hour : Z;
  minute : Z;
  second : Z;
  microsecond : Z;
  tzinfo : option Z
}.

(** ["%0<w>d" % n] for [n >= 0]. *)
Definition pad (w : nat) (n : Z) : string := Str.zfill (Str.str_Z n) w.

(** [datetime._format_offset]: [+HH:MM], then [:SS] and [.ffffff] only
    when not zero; the sign is [-] for a negative offset. *)
Definition _format_offset (off : option Z) : string :=
  match off with
  | None => ""
  | Some o =>
      let sign := if (o <? 0)%Z then "-" else "+" in
      let a := Z.abs o in
      let hh := a / 3600000000 in
      let mm := a mod 3600000000 / 60000000 in
      let ss := a mod 60000000 in
      sign ++ pad 2 hh ++ ":" ++ pad 2 mm ++
      (if (ss =? 0)%Z then ""
       else ":" ++ pad 2 (ss / 1000000) ++
            (if (ss mod 1000000 =? 0)%Z then "" else "." ++ pad 6 (ss mod 1000000)))
  end.

(** [datetime.isoformat()] ([sep="T"], [timespec="auto"]): the
    microseconds only when not zero, then the UTC offset of an aware
    datetime. *)
Definition isoformat (d : datetime) : string :=
  pad 4 d.(year) ++ "-" ++ pad 2 d.(month) ++ "-" ++ pad 2 d.(day) ++ "T" ++
  pad 2 d.(hour) ++ ":" ++ pad 2 d.(minute) ++ ":" ++ pad 2 d.(second) ++
  (if (d.(microsecond) =? 0)%Z then "" else "." ++ pad 6 d.(microsecond)) ++
  _format_offset d.(tzinfo).

(** [dataclass_serializer.serialize] on a datetime (promptflow/_utils,
    not among the sources): [value.isoformat() + "Z"]. *)
Definition serialize (d : datetime) : string := isoformat d ++ "Z".

Definition is_leap (y : Z) : bool :=
  ((y mod 4 =? 0) && negb (y mod 100 =? 0) || (y mod 400 =? 0))%Z.

Definition days_in_month (y m : Z) : Z :=
  (if m =? 2 then (if is_leap y then 29 else 28)
   else if existsb (Z.eqb m) [4; 6; 9; 11] then 30 else 31)%Z.

(** The range checks of the [datetime] constructor on its fields. *)
Definition valid_fields (d : datetime) : bool :=
  ((1 <=? d.(year)) && (d.(year) <=? 9999) && (1 <=? d.(month)) && (d.(month) <=? 12) &&
  (1 <=? d.(day)) && (d.(day) <=? days_in_month d.(year) d.(month)) &&
  (0 <=? d.(hour)) && (d.(hour) <=? 23) && (0 <=? d.(minute)) && (d.(minute) <=? 59) &&
  (0 <=? d.(second)) && (d.(second) <=? 59) &&
  (0 <=? d.(microsecond)) && (d.(microsecond) <=? 999999))%Z.

(** A Python datetime: valid fields, and a [utcoffset()] strictly within
    one day, as [timezone] requires. *)
Definition valid (d : datetime) : bool :=
  valid_fields d &&
  match d.(tzinfo) with
  | Some o => ((-86400000000 <? o) && (o <? 86400000000))%Z
  | None => true
  end.

Definition bind {A B} (o : option A) (f : A -> option B) : option B :=
  match o with Some a => f a | None => None end.

(** [n] decimal digits at the head of the text, and what follows. *)
Fixpoint take_digits (n : nat) (s : string) : option (string * string) :=
  match n with
  | O => Some ("", s)
  | S n' =>
      match s with
      | String c s' =>
          if Str.is_digit c
          then bind (take_digits n' s') (fun '(a, r) => Some (String c a, r))
          else None
      | EmptyString => None
      end
  end.

Definition take_num (n : nat) (s : string) : option (Z * string) :=
  bind (take_digits n s) (fun '(a, r) => bind (Str.parse_Z a) (fun z => Some (z, r))).

Definition expect (c : ascii) (s : string) : option string :=
  match s with
  | String c' s' => if Ascii.eqb c c' then Some s' else None
  | EmptyString => None
  end.

(** The zone after the time: none (naive), [Z] (UTC, offset 0), or a
    numeric [+HH:MM] / [-HH:MM] ending the text.  After a numeric offset
    the parser takes no further zone name: a [Z] there (or any other
    token, such as [:SS]) is neither a number, a name nor a skippable
    word, and [parse] raises [ValueError]. *)
Definition parse_zone (s : string) : option (option Z) :=
  match s with
  | EmptyString => Some None
  | String c r =>
      if Ascii.eqb c "Z" then
        match r with EmptyString => Some (Some 0) | _ => None end
      else if Ascii.eqb c "+" || Ascii.eqb c "-" then
        bind (take_num 2 r) (fun '(hh, r) =>
        bind (expect ":" r) (fun r =>
        bind (take_num 2 r) (fun '(mm, r) =>
        match r with
        | EmptyString =>
            Some (Some ((if Ascii.eqb c "+" then 1 else -1) * (hh * 3600 + mm * 60) * 1000000)%Z)
        | _ => None
        end)))
      else None
  end.

(** [dateutil.parser.parse] on texts laid out as [isoformat] writes them
    ([YYYY-MM-DDTHH:MM:SS], an optional [.ffffff], then the zone), [None]
    being the [ValueError] it raises: [Z] gives the UTC datetime, a
    numeric offset an aware one, and fields out of range are refused by
    the [datetime] constructor.  Texts of other layouts are not modelled
    and give [None]. *)
Definition parse (s : string) : option datetime :=
  bind (take_num 4 s) (fun '(y, s) =>
  bind (expect "-" s) (fun s =>
  bind (take_num 2 s) (fun '(mo, s) =>
  bind (expect "-" s) (fun s =>
  bind (take_num 2 s) (fun '(d, s) =>
  bind (expect "T" s) (fun s =>
  bind (take_num 2 s) (fun '(h, s) =>
  bind (expect ":" s) (fun s =>
  bind (take_num 2 s) (fun '(mi, s) =>
  bind (expect ":" s) (fun s =>
  bind (take_num 2 s) (fun '(se, s) =>
  bind (match s with String "." s' => take_num 6 s' | _ => Some (0, s) end) (fun '(us, s) =>
  bind (parse_zone s) (fun tz =>
  let dt := mkDatetime y mo d h mi se us tz in
  if valid_fields dt then Some dt else None))))))))))))).

(** [.replace(tzinfo=None)] *)
Definition replace_tzinfo_none (d : datetime) : datetime :=
  mkDatetime d.(year) d.(month) d.(day) d.(hour) d.(minute) d.(second) d.(microsecond) None.

End DateTime.

(* ------------------------------------------------------------------ *)
(** ** promptflow/contracts/run_info.py: [RunInfo] and [FlowRunInfo]

    [serialize] is [dataclass_serializer.serialize] (promptflow/_utils,
    not among the sources): every dataclass field under its name, strings
    as strings, the status as its value, a datetime as
    [isoformat() + "Z"], [None] as null, other values as they are;
    [json.dumps]/[json.loads] are the identity on these values.  [deserialize] follows the sources;
    [None] stands for the exception it raises on a malformed dict. *)

Module JsonGet.
Local Open Scope string_scope.

Definition as_str (j : json) : option string :=
  match j with JStr s => Some s | _ => None end.

Definition as_opt_str (j : json) : option (option string) :=
  match j with JNull => Some None | JStr s => Some (Some s) | _ => None end.

Definition as_opt_Z (j : json) : option (option Z) :=
  match j with JNull => Some None | JNum n => Some (Some n) | _ => None end.

Definition as_bool (j : json) : option bool :=
  match j with JBool b => Some b | _ => None end.

Definition of_opt_str (o : option string) : json :=
  match o with Some s => JStr s | None => JNull end.

Definition of_opt_Z (o : option Z) : json :=
  match o with Some n => JNum n | None => JNull end.

(** [Status(data.get("status"))] *)
Definition as_status (j : json) : option Status :=
  match j with JStr v => Status_of_value v | _ => None end.

(** [parser.parse(data.get(k)).replace(tzinfo=None)] *)
Definition as_naive_time (j : json) : option DateTime.datetime :=
  match j with
  | JStr s => option_map DateTime.replace_tzinfo_none (DateTime.parse s)
  | _ => None
  end.

Notation "'let?' x := e 'in' b" := (match e with Some x => b | None => None end)
  (at level 200, x name, e at level 100, b at level 200).

End JsonGet.

Module RunInfo.
Import JsonGet.
Local Open Scope string_scope.

Record t := mk {
  node : string;
  flow_run_id : string;
  run_id : string;
  status : Status;
  inputs : json;
  output : json;
  metrics : json;
  error : json;
  parent_run_id : string;
  start_time : DateTime.datetime;
  end_time : DateTime.datetime;
  index : option Z;
  api_calls : json;
  variant_id : string;
  cached_run_id : option string;
  cached_flow_run_id : option string;
  logs : json;
  system_metrics : json;
  result : json
}.

Definition serialize (r : t) : json :=
  JObj [("node", JStr r.(node)); ("flow_run_id", JStr r.(flow_run_id)); ("run_id", JStr r.(run_id));
        ("status", JStr (Status_value r.(status))); ("inputs", r.(inputs)); ("output", r.(output));
        ("metrics", r.(metrics)); ("error", r.(error)); ("parent_run_id", JStr r.(parent_run_id));
        ("start_time", JStr (DateTime.serialize r.(start_time)));
        ("end_time", JStr (DateTime.serialize r.(end_time)));
        ("index", of_opt_Z r.(index)); ("api_calls", r.(api_calls));
        ("variant_id", JStr r.(variant_id)); ("cached_run_id", of_opt_str r.(cached_run_id));
        ("cached_flow_run_id", of_opt_str r.(cached_flow_run_id)); ("logs", r.(logs));
        ("system_metrics", r.(system_metrics)); ("result", r.(result))].

(** [RunInfo.deserialize] *)
Definition deserialize (j : json) : option t :=
  match j with
  | JObj data =>
      let get k d := Json.get data k d in
      let? node := as_str (get "node" JNull) in
      let? flow_run_id := as_str (get "flow_run_id" JNull) in
      let? run_id := as_str (get "run_id" JNull) in
      let? status := as_status (get "status" JNull) in
      let? parent_run_id := as_str (get "parent_run_id" JNull) in
      let? start_time := as_naive_time (get "start_time" JNull) in
      let? end_time := as_naive_time (get "end_time" JNull) in
      let? index := as_opt_Z (get "index" JNull) in
      let? variant_id := as_str (get "variant_id" (JStr "")) in
      let? cached_run_id := as_opt_str (get "cached_run_id" JNull) in
      let? cached_flow_run_id := as_opt_str (get "cached_flow_run_id" JNull) in
      Some (mk node flow_run_id run_id status (get "inputs" JNull) (get "output" JNull)
               (get "metrics" JNull) (get "error" JNull) parent_run_id start_time end_time index
               (get "api_calls" JNull) variant_id cached_run_id cached_flow_run_id
               (get "logs" JNull) (get "system_metrics" JNull) (get "result" JNull))
  | _ => None
  end.

End RunInfo.

Module FlowRunInfo.
Import JsonGet.
Local Open Scope string_scope.

Record t := mk {
  run_id : string;
  status : Status;
  error : json;
  inputs : json;
  output : json;
  metrics : json;
  request : json;
  parent_run_id : string;
  root_run_id : string;
  source_run_id : string;
  flow_id : string;
  start_time : DateTime.datetime;
  end_time : DateTime.datetime;
  index : option Z;
  api_calls : json;
  variant_id : string;
  name : string;
  description : string;
  tags : json;
  system_metrics : json;
  result : json;
  upload_metrics : bool
}.

Definition serialize (r : t) : json :=
  JObj [("run_id", JStr r.(run_id)); ("status", JStr (Status_value r.(status)));
        ("error", r.(error)); ("inputs", r.(inputs)); ("output", r.(output));
        ("metrics", r.(metrics)); ("request", r.(request));
        ("parent_run_id", JStr r.(parent_run_id)); ("root_run_id", JStr r.(root_run_id));
        ("source_run_id", JStr r.(source_run_id)); ("flow_id", JStr r.(flow_id));
        ("start_time", JStr (DateTime.serialize r.(start_time)));
        ("end_time", JStr (DateTime.serialize r.(end_time)));
        ("index", of_opt_Z r.(index)); ("api_calls", r.(api_calls));
        ("variant_id", JStr r.(variant_id)); ("name", JStr r.(name));
        ("description", JStr r.(description)); ("tags", r.(tags));
        ("system_metrics", r.(system_metrics)); ("result", r.(result));
        ("upload_metrics", JBool r.(upload_metrics))].

(** [FlowRunInfo.deserialize] *)
Definition deserialize (j : json) : option t :=
  match j with
  | JObj data =>
      let get k d := Json.get data k d in
      let? run_id := as_str (get "run_id" JNull) in
      let? status := as_status (get "status" JNull) in
      let? parent_run_id := as_str (get "parent_run_id" JNull) in
      let? root_run_id := as_str (get "root_run_id" JNull) in
      let? source_run_id := as_str (get "source_run_id" JNull) in
      let? flow_id := as_str (get "flow_id" JNull) in
      let? start_time := as_naive_time (get "start_time" JNull) in
      let? end_time := as_naive_time (get "end_time" JNull) in
      let? index := as_opt_Z (get "index" JNull) in
      let? variant_id := as_str (get "variant_id" (JStr "")) in
      let? name := as_str (get "name" (JStr "")) in
      let? description := as_str (get "description" (JStr "")) in
      let? upload_metrics := as_bool (get "upload_metrics" (JBool false)) in
      Some (mk run_id status (get "error" JNull) (get "inputs" JNull) (get "output" JNull)
               (get "metrics" JNull) (get "request" JNull) parent_run_id root_run_id
               source_run_id flow_id start_time end_time index (get "api_calls" JNull)
               variant_id name description (get "tags" JNull) (get "system_metrics" JNull)
               (get "result" JNull) upload_metrics)
  | _ => None
  end.

End FlowRunInfo.

(* ------------------------------------------------------------------ *)
(** ** promptflow/_sdk/operations/_local_storage_operations.py

    The storage operations are written as the list of I/O operations they
    perform, and a file system (path to the JSON records its content holds)
    interprets them.  [open(path, "w")] truncates the file. *)

Module LocalStorage.
Local Open Scope string_scope.

Definition LINE_NUMBER_WIDTH : nat := 9.

Record LineRunRecord := mkLineRunRecord {
  line_number : option Z;
  run_info : json;
  start_time : string;
  end_time : string;
  name : string;
  description : string;
  status : string;
  tags : json
}.

(** [LineRunRecord.from_flow_run_info] *)
Definition from_flow_run_info (r : FlowRunInfo.t) : LineRunRecord :=
  mkLineRunRecord r.(FlowRunInfo.index) (FlowRunInfo.serialize r)
    (DateTime.isoformat r.(FlowRunInfo.start_time)) (DateTime.isoformat r.(FlowRunInfo.end_time))
    r.(FlowRunInfo.name) r.(FlowRunInfo.description) (Status_value r.(FlowRunInfo.status))
    r.(FlowRunInfo.tags).

Inductive io_op :=
| LogInfo (msg : string)
| AcquireLock (lock_path : string)
| ReleaseLock (lock_path : string)
(** [with open(path, "w") as f: json.dump(...)]: the file now holds these records *)
| WriteFile (path : string) (content : list LineRunRecord).

Definition fs := list (string * list LineRunRecord).

Fixpoint fs_set (m : fs) (p : string) (c : list LineRunRecord) : fs :=
  match m with
  | [] => [(p, c)]
  | (q, d) :: m' => if String.eqb q p then (p, c) :: m' else (q, d) :: fs_set m' p c
  end.

Fixpoint fs_get (m : fs) (p : string) : option (list LineRunRecord) :=
  match m with
  | [] => None
  | (q, d) :: m' => if String.eqb q p then Some d else fs_get m' p
  end.

Definition apply_op (m : fs) (op : io_op) : fs :=
  match op with
  | WriteFile p c => fs_set m p c
  | _ => m
  end.

Definition apply_ops (m : fs) (ops : list io_op) : fs := fold_left apply_op ops m.

(** [LineRunRecord.dump] *)
Definition dump (self : LineRunRecord) (path : string) : list io_op :=
  [WriteFile path [self]].

(** The block file name of a line. *)
Definition block_filename (batch_size line : Z) : string :=
  let lower_bound := line / batch_size * batch_size in
  let upper_bound := lower_bound + batch_size - 1 in
  Str.zfill (Str.str_Z lower_bound) LINE_NUMBER_WIDTH ++ "_" ++
  Str.zfill (Str.str_Z upper_bound) LINE_NUMBER_WIDTH ++ ".jsonl".

(** [persist_flow_run], [LOCAL_STORAGE_BATCH_SIZE] being [batch_size] and
    [_run_infos_folder] being [folder].  The values are JSON already, so
    [_persist_run_multimedia] has no image to write.  [None] is the
    [TypeError] of [None // batch_size] for a record without line number. *)
Definition persist_flow_run (batch_size : Z) (folder : string) (run_info : FlowRunInfo.t)
  : option (list io_op) :=
  if negb (is_terminated run_info.(FlowRunInfo.status)) then
    Some [LogInfo "Line run is not terminated, skip persisting line run record."]
  else
    let line_run_record := from_flow_run_info run_info in
    match line_run_record.(line_number) with
    | None => None
    | Some line => Some (dump line_run_record (folder ++ "/" ++ block_filename batch_size line))
    end.

(** Persist the line runs one after the other. *)
Fixpoint persist_flow_runs (batch_size : Z) (folder : string) (runs : list FlowRunInfo.t)
  (m : fs) : fs * list io_op :=
  match runs with
  | [] => (m, [])
  | r :: runs' =>
      let ops := match persist_flow_run batch_size folder r with Some o => o | None => [] end in
      let (m', ops') := persist_flow_runs batch_size folder runs' (apply_ops m ops) in
      (m', ops ++ ops')%list
  end.

Definition takes_lock (op : io_op) : bool :=
  match op with AcquireLock _ => true | _ => false end.

Definition writes (op : io_op) : bool :=
  match op with WriteFile _ _ => true | _ => false end.

End LocalStorage.

(** [NodeRunRecord] and [LocalStorageOperations.persist_node_run].  A path
    is the list of its segments, so [path.name] is its last segment; a node
    name is one segment.  The lock file of [dump] lives in
    [HOME_PROMPT_FLOW_DIR]; [AcquireLock] and [ReleaseLock] name it by its
    file name.  The values are JSON already, so [_persist_run_multimedia]
    has no image to write. *)
Module NodeStorage.
Local Open Scope string_scope.

Record NodeRunRecord := mkNodeRunRecord {
  NodeName : string;
  line_number : option Z;
  run_info : json;
  start_time : string;
  end_time : string;
  status : string
}.

(** [NodeRunRecord.from_run_info] *)
Definition from_run_info (node_run_info : RunInfo.t) : NodeRunRecord :=
  mkNodeRunRecord node_run_info.(RunInfo.node) node_run_info.(RunInfo.index)
    (RunInfo.serialize node_run_info) (DateTime.isoformat node_run_info.(RunInfo.start_time))
    (DateTime.isoformat node_run_info.(RunInfo.end_time)) (Status_value node_run_info.(RunInfo.status)).

Inductive node_op :=
| AcquireLock (lock_file : string)
| ReleaseLock (lock_file : string)
(** [with open(path, "w") as f: json.dump(asdict(self), f)] *)
| WriteFile (path : list string) (content : NodeRunRecord).

(** [Path.name] *)
Definition name (path : list string) : string := last path "".

(** [NodeRunRecord.dump] *)
Definition dump (self : NodeRunRecord) (path : list string) (run_name : string) : list node_op :=
  let filename_need_lock := Str.zfill "0" LocalStorage.LINE_NUMBER_WIDTH ++ ".jsonl" in
  if String.eqb (name path) filename_need_lock then
    let file_lock_path := run_name ++ "." ++ self.(NodeName) ++ ".lock" in
    [AcquireLock file_lock_path; WriteFile path self; ReleaseLock file_lock_path]
  else [WriteFile path self].

(** [persist_node_run], [_node_infos_folder] being [node_infos_folder] and
    [self._run.name] being [run_name]. *)
Definition persist_node_run (node_infos_folder : list string) (run_name : string)
  (run_info : RunInfo.t) : list node_op :=
  let node_folder := (node_infos_folder ++ [run_info.(RunInfo.node)])%list in
  let node_run_record := from_run_info run_info in
  let line_number := match node_run_record.(line_number) with None => 0 | Some l => l end in
  let filename := Str.zfill (Str.str_Z line_number) LocalStorage.LINE_NUMBER_WIDTH ++ ".jsonl" in
  dump node_run_record (node_folder ++ [filename])%list run_name.

End NodeStorage.

(** [LocalStorageOperations._outputs_padding].  A row of the outputs
    DataFrame is its [line_number] and its other columns; a column a row
    lacks holds NaN.  [sort_values] is
    [res.sort_values(by=LINE_NUMBER, ascending=True)], pandas' quicksort,
    which is not stable: only its result's order by line number is known. *)
Module OutputsPadding.

Definition row := (Z * list (string * json))%type.

Definition le_line (a b : row) : bool := Z.leb (fst a) (fst b).

Section Padding.
Variable sort_values : list row -> list row.

Definition _outputs_padding (df : list row) (inputs_line_numbers : list Z) : list row :=
  if Nat.eqb (length df) (length inputs_line_numbers) then df
  else
    let lines_set := map fst df in
    let missing_lines :=
      map (fun i => (i, []))
          (filter (fun i => negb (existsb (Z.eqb i) lines_set)) inputs_line_numbers) in
    sort_values (df ++ missing_lines).

End Padding.
End OutputsPadding.

(* ------------------------------------------------------------------ *)
(** ** The line execution pool.

    Modelled from the spec: promptflow/executor/_line_execution_process_pool.py
    is not part of the sources (only its tests are); §4.8 describes it.
    Each line goes to a worker; a worker that does not return within
    [line_timeout_sec] is terminated and the line gets a failed result
    carrying [LineExecutionTimeoutError]; a worker that returns gives its
    own result (an exception inside [exec_line] already being a failed
    result); the pool goes on with the next line either way. *)

Module LineExecutionProcessPool.
Local Open Scope string_scope.

(** The error dict of a failed line: [ExceptionPresenter.to_dict]. *)
Record ErrorDict := mkErrorDict { message : string; code : string; error_type : string }.

Record LineResult := mkLineResult {
  index : Z;
  status : Status;
  output : json;
  error : option ErrorDict
}.

(** promptflow/executor/_errors.py: [LineExecutionTimeoutError], a
    [UserErrorException], whose code is therefore ["UserError"]. *)
Definition LineExecutionTimeoutError (line_number timeout : Z) : ErrorDict :=
  mkErrorDict ("Line " ++ Str.str_Z line_number ++ " execution timeout for exceeding "
               ++ Str.str_Z timeout ++ " seconds")
              "UserError" "LineExecutionTimeoutError".

(** How the worker of a line behaves: after how many seconds it returns
    ([None]: never), and the result it returns. *)
Record Worker := mkWorker {
  return_after : Z -> option Z;
  exec_line : Z -> json -> LineResult
}.

Definition returns_within (w : Worker) (line_timeout_sec line : Z) : bool :=
  match return_after w line with
  | Some t => Z.leb t line_timeout_sec
  | None => false
  end.

Definition run_line (w : Worker) (line_timeout_sec : Z) (line : Z) (inputs : json) : LineResult :=
  if returns_within w line_timeout_sec line then exec_line w line inputs
  else mkLineResult line Failed JNull (Some (LineExecutionTimeoutError line line_timeout_sec)).

(** [run]: one result per line, in the order of the lines. *)
Definition run (w : Worker) (line_timeout_sec : Z) (lines : list (Z * json)) : list LineResult :=
  map (fun li => run_line w line_timeout_sec (fst li) (snd li)) lines.

End LineExecutionProcessPool.

(* ------------------------------------------------------------------ *)
(** ** The batch inputs processor's merge by line.

    Modelled from the spec: promptflow/batch/_batch_inputs_processor.py is
    not part of the sources (only its tests are); §4.7 and the messages its
    test expects describe [_merge_input_dicts_by_line].  The checks run in
    the order the spec lists the errors: an empty list first, then lengths
    of the lists without [line_number]; the lines are then joined on their
    line numbers (a list without [line_number] numbered by position). *)

Module BatchInputsProcessor.
Local Open Scope string_scope.

Definition record := list (string * json).

Inductive MergeResult :=
| Merged (lines : list json)
| InputMappingError (message : string).

Definition LINE_NUMBER_KEY := "line_number".

Definition has_line_number (r : record) : bool :=
  existsb (fun kv => String.eqb (fst kv) LINE_NUMBER_KEY) r.

(** Python's [repr] of the dict of list lengths. *)
Definition lengths_repr (l : list (string * nat)) : string :=
  "{" ++ Str.join ", " (map (fun kv => "'" ++ fst kv ++ "': " ++ Str.str_Z (Z.of_nat (snd kv))) l)
  ++ "}".

Definition empty_list_message (input_key : string) : string :=
  "The input for batch run is incorrect. Input from key '" ++ input_key ++
  "' is an empty list, which means we cannot generate a single line input for the flow run. " ++
  "Please rectify the input and try again.".

Definition lengths_message (l : list (string * nat)) : string :=
  "The input for batch run is incorrect. Line numbers are not aligned. Some lists have " ++
  "dictionaries missing the 'line_number' key, and the lengths of these lists are different. " ++
  "List lengths are: " ++ lengths_repr l ++ ". Please make sure these lists have the same " ++
  "length or add 'line_number' key to each dictionary.".

(** [{key: len(l) for key, l in input_dict.items() if not any(line_number in item)}] *)
Definition lengths_without_line_number (input_dict : list (string * list record))
  : list (string * nat) :=
  map (fun kv => (fst kv, length (snd kv)))
      (filter (fun kv => negb (existsb has_line_number (snd kv))) input_dict).

Definition all_equal (l : list nat) : bool :=
  match l with
  | [] => true
  | x :: l' => forallb (Nat.eqb x) l'
  end.

Definition numbered (l : list record) : list (Z * record) :=
  if existsb has_line_number l then
    flat_map (fun r => match Json.get r LINE_NUMBER_KEY JNull with
                       | JNum n => [(n, r)] | _ => [] end) l
  else combine (map Z.of_nat (seq 0 (length l))) l.

Fixpoint find_line (n : Z) (l : list (Z * record)) : option record :=
  match l with
  | [] => None
  | (m, r) :: l' => if Z.eqb m n then Some r else find_line n l'
  end.

Definition join_lines (input_dict : list (string * list record)) : list json :=
  match input_dict with
  | [] => []
  | (_, first) :: _ =>
      let tables := map (fun kv => (fst kv, numbered (snd kv))) input_dict in
      flat_map (fun nr =>
        let n := fst nr in
        let cols := map (fun kt => (fst kt, find_line n (snd kt))) tables in
        if forallb (fun c => match snd c with Some _ => true | None => false end) cols
        then [JObj (map (fun c => (fst c, match snd c with Some r => JObj r | None => JNull end)) cols
                    ++ [(LINE_NUMBER_KEY, JNum n)])%list]
        else []) (numbered first)
  end.

Definition _merge_input_dicts_by_line (input_dict : list (string * list record)) : MergeResult :=
  match find (fun kv => match snd kv with [] => true | _ => false end) input_dict with
  | Some (input_key, _) => InputMappingError (empty_list_message input_key)
  | None =>
      let lens := lengths_without_line_number input_dict in
      if negb (all_equal (map snd lens)) then InputMappingError (lengths_message lens)
      else Merged (join_lines input_dict)
  end.

(** Python's [sub in s]. *)
Fixpoint contains (s sub : string) : bool :=
  String.prefix sub s ||
  match s with EmptyString => false | String _ s' => contains s' sub end.

End BatchInputsProcessor.

(* ------------------------------------------------------------------ *)
(** ** promptflow/_sdk/_configuration.py and the run output path of
    promptflow/_sdk/entities/_run.py

    A path is its list of segments below the root; [Path(s)] of a relative
    text is taken below the working directory [cwd]; [resolve()] folds
    [.] and [..] (no symbolic links).  [mkdir] may fail, which the code
    catches like any other error. *)

Module RunOutputPath.
Local Open Scope string_scope.

Definition FLOW_DIRECTORY_MACRO_IN_CONFIG := "${flow_directory}".
Definition RUN_OUTPUT_PATH := "run.output_path".
Definition PROMPT_FLOW_DIR_NAME := ".promptflow".

(** [Configuration._validate]: [Some message] is the [InvalidConfigValue] raised. *)
Definition _validate (key value : string) : option string :=
  if String.eqb key RUN_OUTPUT_PATH
     && Str.endswith (Str.rstrip_slash value) FLOW_DIRECTORY_MACRO_IN_CONFIG
  then Some ("Cannot specify flow directory as run output path; " ++
             "if you want to specify run output path under flow directory, " ++
             "please use its child folder, e.g. '${flow_directory}/.runs'.")
  else None.

(** [Configuration.set_config] on the config dict (the YAML write apart). *)
Definition set_config (config : list (string * string)) (key value : string)
  : option string + list (string * string) :=
  match _validate key value with
  | Some msg => inl (Some msg)
  | None => inr ((key, value) :: config)
  end.

Definition path := list string.

Definition resolve_segs (segs : list string) : path :=
  fold_left (fun acc seg =>
    if String.eqb seg "" || String.eqb seg "." then acc
    else if String.eqb seg ".." then removelast acc
    else (acc ++ [seg])%list) segs [].

(** [Path(s).resolve()] *)
Definition resolve_text (cwd : path) (s : string) : path :=
  match s with
  | String "/" _ => resolve_segs (Str.split_slash s)
  | _ => resolve_segs (cwd ++ Str.split_slash s)%list
  end.

Definition resolve (p : path) : path := resolve_segs p.

Definition as_posix (p : path) : string := "/" ++ Str.join_slash p.

(** [(path / str(self.name)).resolve()] *)
Definition join_name (p : path) (name : string) : path := resolve (p ++ Str.split_slash name)%list.

Definition default_runs_dir (home : path) : path := (home ++ [PROMPT_FLOW_DIR_NAME; ".runs"])%list.

(** [Run._generate_output_path]: [config_output_path] is
    [config.get_run_output_path()], [flow] the run's flow directory,
    [home] is [Path.home()], [mkdir_ok] whether [path.mkdir] succeeds. *)
Definition _generate_output_path (config_output_path : option string) (flow cwd home : path)
  (name : string) (mkdir_ok : path -> bool) : path :=
  let p :=
    match config_output_path with
    | None => default_runs_dir home
    | Some s =>
        let flow_posix_path := as_posix (resolve flow) in
        let p := resolve_text cwd (Str.replace s FLOW_DIRECTORY_MACRO_IN_CONFIG flow_posix_path) in
        if String.eqb (as_posix p) flow_posix_path then default_runs_dir home
        else if mkdir_ok p then p
        else default_runs_dir home
    end in
  join_name p name.

End RunOutputPath.

(* ================================================================== *)
(** * Properties *)

(** ** Checks of the embedding against the sources' tests *)

Module Checks.
Local Open Scope string_scope.

Example block_names :
  LocalStorage.block_filename 2 0 = "000000000_000000001.jsonl" /\
  LocalStorage.block_filename 2 1 = "000000000_000000001.jsonl" /\
  LocalStorage.block_filename 2 3 = "000000002_000000003.jsonl".
Proof. vm_compute. auto. Qed.

Example timeout_message :
  LineExecutionProcessPool.message (LineExecutionProcessPool.LineExecutionTimeoutError 2 1)
  = "Line 2 execution timeout for exceeding 1 seconds".
Proof. vm_compute. reflexivity. Qed.

Example merge_empty_message :
  BatchInputsProcessor._merge_input_dicts_by_line [("baseline", [])] =
  BatchInputsProcessor.InputMappingError
    ("The input for batch run is incorrect. Input from key 'baseline' is an empty list, which means we " ++
     "cannot generate a single line input for the flow run. Please rectify the input and try again.").
Proof. vm_compute. reflexivity. Qed.

Example merge_lengths_message :
  BatchInputsProcessor._merge_input_dicts_by_line
    [("data", [[("question", JStr "q1"); ("answer", JStr "ans1")];
               [("question", JStr "q2"); ("answer", JStr "ans2")]]);
     ("baseline", [[("answer", JStr "baseline_ans2")]])] =
  BatchInputsProcessor.InputMappingError
    ("The input for batch run is incorrect. Line numbers are not aligned. Some lists have dictionaries " ++
     "missing the 'line_number' key, and the lengths of these lists are different. List lengths are: " ++
     "{'data': 2, 'baseline': 1}. Please make sure these lists have the same length " ++
     "or add 'line_number' key to each dictionary.").
Proof. vm_compute. reflexivity. Qed.

Example merge_by_line :
  BatchInputsProcessor._merge_input_dicts_by_line
    [("data", [[("question", JStr "q1")]; [("question", JStr "q2")]]);
     ("output", [[("answer", JStr "output_ans2"); ("line_number", JNum 1)]])] =
  BatchInputsProcessor.Merged
    [JObj [("data", JObj [("question", JStr "q2")]);
           ("output", JObj [("answer", JStr "output_ans2"); ("line_number", JNum 1)]);
           ("line_number", JNum 1)]].
Proof. vm_compute. reflexivity. Qed.

Example validate_checks :
  RunOutputPath._validate "run.output_path" "${flow_directory}/" <> None /\
  RunOutputPath._validate "run.output_path" "${flow_directory}/.runs" = None /\
  Str.replace "${flow_directory}/.runs" "${flow_directory}" "/w/f" = "/w/f/.runs".
Proof. vm_compute. split; [discriminate | auto]. Qed.

Example node_ids :
  FlowExecutionContext._generate_node_run_id
    (FlowExecutionContext.mk "f" "r" "r" (Some 3) "") (mkNode "n" false false) "" = "r_n_3" /\
  FlowExecutionContext._generate_node_run_id
    (FlowExecutionContext.mk "f" "r" "r" None "") (mkNode "acc" true false) "" = "r_acc_reduce".
Proof. vm_compute. auto. Qed.

Example uuid_check :
  Str.is_uuid "12345678-9abc-4def-8123-456789abcdef" = true.
Proof. vm_compute. reflexivity. Qed.

End Checks.

(** ** Facts about the string helpers *)

Module StrFacts.
Import Str.
Local Open Scope string_scope.

Lemma parse_uint_string_of_uint (u : Decimal.uint) : parse_uint (string_of_uint u) = Some u.
Proof. induction u; simpl; try rewrite IHu; reflexivity. Qed.

Lemma digits_string_of_uint (u : Decimal.uint) : all_chars is_digit (string_of_uint u) = true.
Proof. induction u; simpl; try rewrite IHu; reflexivity. Qed.

Lemma parse_Z_str_Z (z : Z) : parse_Z (str_Z z) = Some z.
Proof.
  rewrite <- (DecimalZ.of_to z) at 2. unfold str_Z.
  destruct (Z.to_int z) as [u | u].
  - destruct u; unfold parse_Z; simpl string_of_uint; cbv match;
      rewrite <- ?(parse_uint_string_of_uint (_ _)); try reflexivity;
      simpl; rewrite parse_uint_string_of_uint; reflexivity.
  - unfold parse_Z. rewrite parse_uint_string_of_uint. reflexivity.
Qed.

Lemma str_Z_inj (a b : Z) : str_Z a = str_Z b -> a = b.
Proof.
  intros H. assert (E : parse_Z (str_Z a) = parse_Z (str_Z b)) by now rewrite H.
  rewrite !parse_Z_str_Z in E. congruence.
Qed.

Lemma str_Z_shape (z : Z) :
  all_chars is_digit (str_Z z) = true \/
  exists d, str_Z z = String "-" d /\ all_chars is_digit d = true.
Proof.
  unfold str_Z. destruct (Z.to_int z) as [u | u].
  - left. apply digits_string_of_uint.
  - right. exists (string_of_uint u). split; [reflexivity | apply digits_string_of_uint].
Qed.

Lemma all_chars_impl (p q : ascii -> bool) (s : string) :
  (forall c, p c = true -> q c = true) -> all_chars p s = true -> all_chars q s = true.
Proof.
  intros Hpq. induction s as [| c s IH]; simpl; auto.
  intros H. apply andb_prop in H as [H1 H2]. rewrite (Hpq c H1), (IH H2). reflexivity.
Qed.

Lemma digit_not_underscore (c : ascii) : is_digit c = true -> negb (Ascii.eqb c "_") = true.
Proof.
  intros H. destruct (Ascii.eqb c "_") eqn:E; [| reflexivity].
  apply Ascii.eqb_eq in E. subst. discriminate H.
Qed.

Lemma no_underscore_str_Z (z : Z) : no_underscore (str_Z z) = true.
Proof.
  unfold no_underscore. destruct (str_Z_shape z) as [H | [d [E H]]].
  - exact (all_chars_impl _ _ _ digit_not_underscore H).
  - rewrite E. simpl. exact (all_chars_impl _ _ _ digit_not_underscore H).
Qed.

Lemma is_uuid_from_no_underscore (i : nat) (s : string) :
  is_uuid_from i s = true -> no_underscore s = true.
Proof.
  unfold no_underscore. revert i. induction s as [| c s IH]; intros i H; simpl in *; auto.
  apply andb_prop in H as [H1 H2]. rewrite (IH _ H2), andb_true_r.
  destruct (Ascii.eqb c "_") eqn:E; [| reflexivity].
  apply Ascii.eqb_eq in E. subst.
  destruct (_ || _)%bool; vm_compute in H1; discriminate H1.
Qed.

Lemma digits_not_uuid_from (i : nat) (s : string) :
  all_chars is_digit s = true -> (i <= 8)%nat -> is_uuid_from i s = false.
Proof.
  revert i. induction s as [| c s IH]; intros i Hd Hi; simpl in *.
  - apply Nat.eqb_neq. lia.
  - apply andb_prop in Hd as [Hc Hs].
    destruct (Nat.eq_dec i 8) as [-> | Hne].
    + simpl. destruct (Ascii.eqb c "-") eqn:E; [| reflexivity].
      apply Ascii.eqb_eq in E. subst. discriminate Hc.
    + rewrite (IH (S i) Hs ltac:(lia)), andb_false_r. reflexivity.
Qed.

Lemma str_Z_not_uuid (z : Z) : is_uuid (str_Z z) = false.
Proof.
  unfold is_uuid. destruct (str_Z_shape z) as [H | [d [E H]]].
  - apply digits_not_uuid_from; [exact H | lia].
  - rewrite E. reflexivity.
Qed.

Lemma str_Z_not_reduce (z : Z) : str_Z z <> "reduce".
Proof.
  intros E. destruct (str_Z_shape z) as [H | [d [E' _]]].
  - rewrite E in H. discriminate H.
  - rewrite E in E'. discriminate E'.
Qed.

Lemma append_cancel_l (r x y : string) : r ++ x = r ++ y -> x = y.
Proof. induction r as [| c r IH]; simpl; auto. intros H. injection H. auto. Qed.

(** Splitting at the last underscore: a suffix without underscore and the
    text before it are determined. *)
Lemma split_last_underscore (a b x y : string) :
  no_underscore x = true -> no_underscore y = true ->
  a ++ "_" ++ x = b ++ "_" ++ y -> a = b /\ x = y.
Proof.
  unfold no_underscore. revert b.
  induction a as [| c a IH]; intros b Hx Hy H; destruct b as [| c' b]; simpl in H.
  - injection H. auto.
  - injection H as Ec Ex. subst c'. rewrite Ex in Hx.
    clear - Hx. exfalso. induction b as [| d b IHb]; simpl in Hx.
    + discriminate Hx.
    + apply andb_prop in Hx as [_ Hx]. auto.
  - injection H as Ec Ey. subst c. rewrite <- Ey in Hy.
    clear - Hy. exfalso. induction a as [| d a IHa]; simpl in Hy.
    + discriminate Hy.
    + apply andb_prop in Hy as [_ Hy]. auto.
  - injection H as Ec Erest. subst c'. destruct (IH b Hx Hy Erest) as [-> ->]. auto.
Qed.

Lemma append_empty (s : string) : s ++ "" = s.
Proof. induction s as [| c s IH]; simpl; congruence. Qed.

End StrFacts.

(** ** Node run ids *)

Module NodeRunIds.
Import FlowExecutionContext.
Local Open Scope string_scope.

Lemma suffix_no_underscore (c : t) (n : Node) (u : string) :
  Str.is_uuid u = true ->
  exists s, _generate_node_run_id c n u = c.(_run_id) ++ "_" ++ node_name n ++ "_" ++ s /\
            Str.no_underscore s = true /\
            s = (if aggregation n then "reduce"
                 else match c.(_line_number) with Some l => Str.str_Z l | None => u end).
Proof.
  intros Hu. unfold _generate_node_run_id.
  destruct (aggregation n).
  - exists "reduce". repeat split; reflexivity.
  - destruct (_line_number c) as [l |].
    + exists (Str.str_Z l). repeat split; auto using StrFacts.no_underscore_str_Z.
    + exists u. repeat split; auto. exact (StrFacts.is_uuid_from_no_underscore 0 u Hu).
Qed.

End NodeRunIds.

(** C2: the node run id follows the schema "{flow_run_id}_{node}_{line}",
    "{flow_run_id}_{node}_{uuid}" without a line number, and
    "{flow_run_id}_{node}_reduce" for an aggregation node; within one flow
    run, two node runs with the same id are runs of the same node at the
    same line (aggregation nodes being run with no line number). *)
Theorem node_run_id_schema_unique :
  forall (c1 c2 : FlowExecutionContext.t) (n1 n2 : Node) (u1 u2 : string),
  Str.is_uuid u1 = true -> Str.is_uuid u2 = true ->
  FlowExecutionContext._run_id c1 = FlowExecutionContext._run_id c2 ->
  (aggregation n1 = true -> FlowExecutionContext._line_number c1 = None) ->
  (aggregation n2 = true -> FlowExecutionContext._line_number c2 = None) ->
  FlowExecutionContext._generate_node_run_id c1 n1 u1 =
    (FlowExecutionContext._run_id c1 ++ "_" ++ node_name n1 ++ "_" ++
     (if aggregation n1 then "reduce"
      else match FlowExecutionContext._line_number c1 with
           | Some l => Str.str_Z l | None => u1 end))%string /\
  (FlowExecutionContext._generate_node_run_id c1 n1 u1 =
     FlowExecutionContext._generate_node_run_id c2 n2 u2 ->
   node_name n1 = node_name n2 /\ aggregation n1 = aggregation n2 /\
   FlowExecutionContext._line_number c1 = FlowExecutionContext._line_number c2).
Proof.
  intros c1 c2 n1 n2 u1 u2 Hu1 Hu2 Hr Ha1 Ha2.
  destruct (NodeRunIds.suffix_no_underscore c1 n1 u1 Hu1) as [s1 [E1 [N1 S1]]].
  destruct (NodeRunIds.suffix_no_underscore c2 n2 u2 Hu2) as [s2 [E2 [N2 S2]]].
  split; [rewrite E1, S1; reflexivity |].
  intros Heq. rewrite E1, E2, Hr in Heq.
  apply StrFacts.append_cancel_l in Heq. injection Heq as Heq.
  destruct (StrFacts.split_last_underscore _ _ _ _ N1 N2 Heq) as [Hn Hs].
  split; [exact Hn |]. subst s1 s2.
  destruct (aggregation n1) eqn:A1, (aggregation n2) eqn:A2.
  - rewrite (Ha1 eq_refl), (Ha2 eq_refl). auto.
  - exfalso. destruct (FlowExecutionContext._line_number c2) as [l |].
    + exact (StrFacts.str_Z_not_reduce l (eq_sym Hs)).
    + rewrite <- Hs in Hu2. discriminate Hu2.
  - exfalso. destruct (FlowExecutionContext._line_number c1) as [l |].
    + exact (StrFacts.str_Z_not_reduce l Hs).
    + rewrite Hs in Hu1. discriminate Hu1.
  - split; [reflexivity |].
    destruct (FlowExecutionContext._line_number c1) as [l1 |],
             (FlowExecutionContext._line_number c2) as [l2 |].
    + rewrite (StrFacts.str_Z_inj _ _ Hs). reflexivity.
    + rewrite <- Hs, StrFacts.str_Z_not_uuid in Hu2. discriminate Hu2.
    + rewrite Hs, StrFacts.str_Z_not_uuid in Hu1. discriminate Hu1.
    + reflexivity.
Qed.

Lemma node_run_id_schema_unique_witness :
  let c := FlowExecutionContext.mk "flow" "run" "run" (Some 3) "" in
  let u := "12345678-9abc-4def-8123-456789abcdef"%string in
  FlowExecutionContext._generate_node_run_id c (mkNode "n" false false) u = "run_n_3"%string /\
  (FlowExecutionContext._generate_node_run_id c (mkNode "n" false false) u =
     FlowExecutionContext._generate_node_run_id c (mkNode "n" false false) u ->
   node_name (mkNode "n" false false) = node_name (mkNode "n" false false) /\
   aggregation (mkNode "n" false false) = aggregation (mkNode "n" false false) /\
   FlowExecutionContext._line_number c = FlowExecutionContext._line_number c).
Proof.
  intros c u. split; [vm_compute; reflexivity |].
  apply (node_run_id_schema_unique c c (mkNode "n" false false) (mkNode "n" false false) u u);
    try reflexivity; vm_compute; try reflexivity; discriminate.
Defined.

(** C8: the node scheduler runs its thread pool with
    [max_workers = min(configured concurrency, 16)]. *)
Theorem scheduler_max_workers_capped :
  forall (nodes : list Node) (node_concurrency : Z),
  FlowNodesScheduler.execute_max_workers (FlowNodesScheduler.init nodes node_concurrency) =
  Z.min node_concurrency 16.
Proof. intros. reflexivity. Qed.

(** ** The cache in [invoke_tool] *)

Module CacheExamples.
Local Open Scope string_scope.

Definition ctx : FlowExecutionContext.t := FlowExecutionContext.mk "flow" "run" "flow" (Some 0) "".
Definition node : Node := mkNode "n" false true.
Definition tool : CacheManager.Tool :=
  CacheManager.mkTool "tools.echo" true (fun _ => inl (JNum 1)).
Definition kwargs : list (string * json) := [("x", JNum 1)].
Definition empty : FlowExecutionContext.ExecState := FlowExecutionContext.mkExecState [] [] [].
Definition plain_node : Node := mkNode "n" false false.
Definition filled : FlowExecutionContext.ExecState :=
  FlowExecutionContext.mkExecState
    [("flow:tools.echo:" ++ Json.render (JObj kwargs), CacheManager.mkCacheRecord "old" "run" (JNum 2))]
    [] [].

End CacheExamples.

(** C1, as stated (cache misses do not alter the cache), fails: a miss on a
    cache-enabled node whose tool returns records the result in the cache. *)
Lemma invoke_tool_miss_alters_cache :
  (exists ci,
     CacheManager.calculate_cache_info "flow" CacheExamples.tool CacheExamples.kwargs = Some ci /\
     CacheManager.get_cache_result (FlowExecutionContext.es_cache CacheExamples.empty) ci
     = CacheManager.miss) /\
  FlowExecutionContext.es_cache
    (snd (FlowExecutionContext.invoke_tool CacheExamples.ctx CacheExamples.node
            CacheExamples.tool CacheExamples.kwargs "" CacheExamples.empty))
  <> FlowExecutionContext.es_cache CacheExamples.empty.
Proof.
  split.
  - eexists. split; [vm_compute; reflexivity | reflexivity].
  - vm_compute. discriminate.
Qed.

(** C1 (amended): on a node with [enable_cache] whose cache lookup hits,
    [invoke_tool] returns the recorded output without calling the tool and
    leaves the cache as it was; on a miss it calls the tool, and a returned
    value is recorded in the cache under the [hash_id] (a raised exception
    records nothing); on a node without [enable_cache] the cache is neither
    read nor written: whatever the cache holds, the outcome, the tool calls
    and the persisted node runs are the same, and the cache is left as it
    was. *)
Theorem invoke_tool_cache_behaviour :
  forall (c : FlowExecutionContext.t) (node : Node) (f : CacheManager.Tool)
         (kwargs : list (string * json)) (u : string) (st : FlowExecutionContext.ExecState),
  let res := FlowExecutionContext.invoke_tool c node f kwargs u st in
  (forall (ci : CacheManager.CacheInfo) (h : string),
   CacheManager.calculate_cache_info (FlowExecutionContext._flow_id c) f kwargs = Some ci ->
   CacheManager.hash_id ci = Some h ->
   (enable_cache node = true ->
    forall r, CacheManager.lookup (FlowExecutionContext.es_cache st) h = Some r ->
    fst res = FlowExecutionContext.Returned (CacheManager.rec_result r) /\
    FlowExecutionContext.es_tool_calls (snd res) = FlowExecutionContext.es_tool_calls st /\
    FlowExecutionContext.es_cache (snd res) = FlowExecutionContext.es_cache st) /\
   (enable_cache node = true ->
    CacheManager.lookup (FlowExecutionContext.es_cache st) h = None ->
    FlowExecutionContext.es_tool_calls (snd res) = node_name node :: FlowExecutionContext.es_tool_calls st /\
    match CacheManager.call f kwargs with
    | inl v =>
        fst res = FlowExecutionContext.Returned v /\
        FlowExecutionContext.es_cache (snd res) =
          (if (0 <? String.length h)%nat
           then (h, CacheManager.mkCacheRecord
                      (FlowExecutionContext._generate_node_run_id c node u)
                      (FlowExecutionContext._run_id c) v) :: FlowExecutionContext.es_cache st
           else FlowExecutionContext.es_cache st)
    | inr e =>
        fst res = FlowExecutionContext.Raised e /\
        FlowExecutionContext.es_cache (snd res) = FlowExecutionContext.es_cache st
    end)) /\
  (enable_cache node = false ->
   FlowExecutionContext.es_cache (snd res) = FlowExecutionContext.es_cache st /\
   forall cache' : CacheManager.store,
   let res' := FlowExecutionContext.invoke_tool c node f kwargs u
                 (FlowExecutionContext.mkExecState cache' (FlowExecutionContext.es_tool_calls st)
                    (FlowExecutionContext.es_persisted st)) in
   fst res' = fst res /\
   FlowExecutionContext.es_tool_calls (snd res') = FlowExecutionContext.es_tool_calls (snd res) /\
   FlowExecutionContext.es_persisted (snd res') = FlowExecutionContext.es_persisted (snd res) /\
   FlowExecutionContext.es_cache (snd res') = cache').
Proof.
  intros c node f kwargs u st res. subst res.
  split.
  - intros ci h Hci Hh.
    unfold FlowExecutionContext.invoke_tool. rewrite Hci.
    split.
    + intros He r Hl. rewrite He.
      unfold CacheManager.get_cache_result. rewrite Hh, Hl. simpl. auto.
    + intros He Hl. rewrite He.
      unfold CacheManager.get_cache_result. rewrite Hh, Hl. simpl.
      destruct (CacheManager.call f kwargs) as [v | e]; simpl;
        (split; [reflexivity | split; try reflexivity]).
      unfold FlowExecutionContext._persist_cache, CacheManager.persist_result. rewrite Hh.
      destruct (0 <? String.length h)%nat; reflexivity.
  - intros He. unfold FlowExecutionContext.invoke_tool. rewrite He.
    destruct st as [cache calls persisted]. simpl.
    split; [destruct (CacheManager.call f kwargs); reflexivity |].
    intros cache'. destruct (CacheManager.call f kwargs); simpl; auto.
Qed.

Lemma invoke_tool_cache_behaviour_witness :
  let ci := CacheManager.mkCacheInfo
              (Some ("flow:tools.echo:" ++ Json.render (JObj CacheExamples.kwargs))%string)
              ("flow:tools.echo:" ++ Json.render (JObj CacheExamples.kwargs))%string in
  CacheManager.calculate_cache_info "flow" CacheExamples.tool CacheExamples.kwargs = Some ci /\
  FlowExecutionContext.es_cache
    (snd (FlowExecutionContext.invoke_tool CacheExamples.ctx CacheExamples.node CacheExamples.tool
            CacheExamples.kwargs "" CacheExamples.empty)) =
  [(("flow:tools.echo:" ++ Json.render (JObj CacheExamples.kwargs))%string,
    CacheManager.mkCacheRecord "run_n_0" "run" (JNum 1))] /\
  FlowExecutionContext.es_cache
    (snd (FlowExecutionContext.invoke_tool CacheExamples.ctx CacheExamples.plain_node
            CacheExamples.tool CacheExamples.kwargs "" CacheExamples.filled)) =
  FlowExecutionContext.es_cache CacheExamples.filled.
Proof.
  intros ci. split; [vm_compute; reflexivity |].
  destruct (invoke_tool_cache_behaviour CacheExamples.ctx CacheExamples.node CacheExamples.tool
              CacheExamples.kwargs "" CacheExamples.empty) as [Hon _].
  destruct (Hon ci ("flow:tools.echo:" ++ Json.render (JObj CacheExamples.kwargs))%string
              ltac:(vm_compute; reflexivity) ltac:(reflexivity)) as [_ Hmiss].
  destruct (Hmiss eq_refl eq_refl) as [_ [_ Hc]].
  split; [rewrite Hc; vm_compute; reflexivity |].
  destruct (invoke_tool_cache_behaviour CacheExamples.ctx CacheExamples.plain_node
              CacheExamples.tool CacheExamples.kwargs "" CacheExamples.filled) as [_ Hoff].
  destruct (Hoff eq_refl) as [Hsame _]. exact Hsame.
Defined.

(** ** The tracer *)

Module TracerFacts.
Import Tracer.

Lemma last_opt_app {A} (l : list A) (x : A) : last_opt (l ++ [x])%list = Some x.
Proof. unfold last_opt. rewrite rev_app_distr. reflexivity. Qed.

Lemma last_opt_nil_iff {A} (l : list A) : last_opt l = None <-> l = [].
Proof.
  unfold last_opt. split.
  - destruct (rev l) eqn:E; [| discriminate].
    intros _. rewrite <- (rev_involutive l), E. reflexivity.
  - intros ->. reflexivity.
Qed.

Lemma nth_error_app_length {A} (l : list A) (x : A) : nth_error (l ++ [x])%list (length l) = Some x.
Proof. rewrite nth_error_app2, Nat.sub_diag; reflexivity. Qed.

Lemma nth_error_set_nth_eq {A} (l : list A) (i : nat) (x : A) :
  (i < length l)%nat -> nth_error (set_nth l i x) i = Some x.
Proof.
  revert i. induction l as [| y l IH]; intros i Hi; simpl in Hi; [lia |].
  destruct i; simpl; [reflexivity | apply IH; lia].
Qed.

Lemma update_trace_eq (h : list Trace) (i : nat) (f : Trace -> Trace) (tr : Trace) :
  nth_error h i = Some tr -> nth_error (update_trace h i f) i = Some (f tr).
Proof.
  intros E. unfold update_trace. rewrite E.
  apply nth_error_set_nth_eq. apply nth_error_Some. congruence.
Qed.

Lemma nth_error_set_nth_neq {A} (l : list A) (i j : nat) (x : A) :
  i <> j -> nth_error (set_nth l i x) j = nth_error l j.
Proof.
  revert i j. induction l as [| y l IH]; intros i j Hij; [reflexivity |].
  destruct i, j; simpl; try reflexivity; [congruence |]. apply IH. lia.
Qed.

Lemma update_trace_neq (h : list Trace) (i j : nat) (f : Trace -> Trace) :
  i <> j -> nth_error (update_trace h i f) j = nth_error h j.
Proof.
  intros Hij. unfold update_trace. destruct (nth_error h i); [| reflexivity].
  apply nth_error_set_nth_neq. exact Hij.
Qed.

Lemma set_nth_length {A} (l : list A) (i : nat) (x : A) : length (set_nth l i x) = length l.
Proof. revert i. induction l; intros [| i]; simpl; auto. Qed.

Lemma update_trace_length (h : list Trace) (i : nat) (f : Trace -> Trace) :
  length (update_trace h i f) = length h.
Proof. unfold update_trace. destruct (nth_error h i); [apply set_nth_length | reflexivity]. Qed.

Lemma in_heap (h : list Trace) (i : nat) : (i < length h)%nat -> exists tr, nth_error h i = Some tr.
Proof.
  intros Hi. destruct (nth_error h i) eqn:E; [eauto |].
  apply nth_error_None in E. lia.
Qed.

End TracerFacts.

(** C7: [start_tracing] activates a fresh tracer when none is active; with
    a tracer active, [push(trace)] stores the trace and appends it to the
    children of the top-of-stack trace (to the root traces when the stack is
    empty) and puts it on the stack; [pop] sets the end time of the top
    frame and removes it from the stack; [end_tracing] of the active run
    deactivates the tracer and returns its serialized root traces. *)
Theorem tracer_push_pop_end_tracing :
  (forall (st : Tracer.State) (run_id : string) (node : option string),
   Tracer.active st = None ->
   Tracer.active (Tracer.start_tracing run_id node st) = Some (Tracer.mkTracer run_id node [] [])) /\
  (forall (st : Tracer.State) (obj : Tracer.Tracer),
   Tracer.active st = Some obj ->
   Forall (fun i => (i < length (Tracer.heap st))%nat) (Tracer._trace_stack obj) ->
   (forall (trace : Tracer.Trace) (now : Z),
    let st' := Tracer.push trace now st in
    let id := length (Tracer.heap st) in
    (exists tr, nth_error (Tracer.heap st') id = Some tr /\
                Tracer.name tr = Tracer.name trace /\ Tracer.inputs tr = Tracer.inputs trace) /\
    exists obj', Tracer.active st' = Some obj' /\
      Tracer._trace_stack obj' = (Tracer._trace_stack obj ++ [id])%list /\
      match Tracer.last_opt (Tracer._trace_stack obj) with
      | None => Tracer._traces obj' = (Tracer._traces obj ++ [id])%list
      | Some top =>
          Tracer._traces obj' = Tracer._traces obj /\
          exists p, nth_error (Tracer.heap st) top = Some p /\
            nth_error (Tracer.heap st') top =
              Some (Tracer.with_children p
                      (Some ((match Tracer.children p with Some c => c | None => [] end) ++ [id])%list))
      end) /\
   (forall (output : option json) (err : option (string * string)) (now : Z) (rest : list nat) (top : nat),
    Tracer._trace_stack obj = (rest ++ [top])%list ->
    exists st', Tracer.pop output err now st = Some st' /\
      (exists obj', Tracer.active st' = Some obj' /\ Tracer._trace_stack obj' = rest) /\
      (exists tr, nth_error (Tracer.heap st') top = Some tr /\ Tracer.end_time tr = Some now)) /\
   Tracer.end_tracing (Some (Tracer._run_id obj)) st =
     (Tracer.to_json (Tracer.heap st) (Tracer._traces obj), Tracer.mkState None (Tracer.heap st))).
Proof.
  split.
  - intros st r n H. unfold Tracer.start_tracing. rewrite H. reflexivity.
  - intros st obj Hact Hwf. split; [| split].
    + (* push *)
      intros trace now st' id. subst st'.
      unfold Tracer.push. rewrite Hact. unfold Tracer._push.
      set (trace' := if Z.eqb (Tracer.start_time trace) 0
                     then Tracer.with_start_time trace now else trace).
      assert (Hn : Tracer.name trace' = Tracer.name trace /\ Tracer.inputs trace' = Tracer.inputs trace)
        by (subst trace'; destruct (Z.eqb _ 0); split; reflexivity).
      destruct (Tracer.last_opt (Tracer._trace_stack obj)) as [top |] eqn:Etop; simpl.
      * assert (Htop : (top < length (Tracer.heap st))%nat).
        { unfold Tracer.last_opt in Etop.
          destruct (rev (Tracer._trace_stack obj)) as [| x l] eqn:Er; [discriminate |].
          injection Etop as ->. rewrite Forall_forall in Hwf. apply Hwf.
          rewrite in_rev, Er. left. reflexivity. }
        destruct (TracerFacts.in_heap _ _ Htop) as [p Hp].
        split.
        -- exists trace'. split; [| exact Hn].
           rewrite TracerFacts.update_trace_neq by (subst id; lia).
           apply TracerFacts.nth_error_app_length.
        -- eexists. split; [reflexivity |]. split; [reflexivity |]. split; [reflexivity |].
           exists p. split; [exact Hp |].
           erewrite TracerFacts.update_trace_eq; [reflexivity |].
           rewrite nth_error_app1 by exact Htop. exact Hp.
      * split.
        -- eexists. split; [apply TracerFacts.nth_error_app_length |]. exact Hn.
        -- eexists. split; [reflexivity |]. split; reflexivity.
    + (* pop *)
      intros output err now rest top Hs.
      assert (Htop : (top < length (Tracer.heap st))%nat).
      { rewrite Hs, Forall_app in Hwf. destruct Hwf as [_ Hwf]. inversion Hwf. assumption. }
      unfold Tracer.pop. rewrite Hact, Hs, TracerFacts.last_opt_app.
      set (h1 := match output with
                 | Some o => Tracer.update_trace (Tracer.heap st) top (fun t => Tracer.with_output t o)
                 | None => Tracer.heap st end).
      set (h2 := match err with
                 | Some (m, ty) => Tracer.update_trace h1 top
                                     (fun t => Tracer.with_error t (Tracer._format_error m ty))
                 | None => h1 end).
      assert (Hl2 : length h2 = length (Tracer.heap st)).
      { subst h2 h1. destruct err as [[m ty] |], output;
          rewrite ?TracerFacts.update_trace_length; reflexivity. }
      destruct (TracerFacts.in_heap h2 top ltac:(lia)) as [tr2 Htr2].
      eexists. split; [reflexivity |]. split.
      * eexists. split; [reflexivity |]. simpl. apply removelast_last.
      * exists (Tracer.with_end_time tr2 now). split; [| reflexivity].
        simpl. erewrite TracerFacts.update_trace_eq; [reflexivity | exact Htr2].
    + (* end_tracing *)
      unfold Tracer.end_tracing. rewrite Hact, String.eqb_refl. reflexivity.
Qed.

Lemma tracer_push_pop_end_tracing_witness :
  let tr := Tracer.mkTrace "tool" "TOOL" 5 None [] None None None None in
  let st := Tracer.push tr 7 (Tracer.start_tracing "run_n_0" (Some "n"%string) (Tracer.mkState None [])) in
  Tracer.active st = Some (Tracer.mkTracer "run_n_0" (Some "n"%string) [0%nat] [0%nat]) /\
  exists st', Tracer.pop (Some (JNum 1)) None 9 st = Some st' /\
    (exists obj', Tracer.active st' = Some obj' /\ Tracer._trace_stack obj' = []) /\
    (exists t, nth_error (Tracer.heap st') 0 = Some t /\ Tracer.end_time t = Some 9).
Proof.
  intros tr st. split; [reflexivity |].
  destruct tracer_push_pop_end_tracing as [_ H].
  destruct (H st (Tracer.mkTracer "run_n_0" (Some "n"%string) [0%nat] [0%nat]) eq_refl
              ltac:(repeat constructor)) as [_ [Hpop _]].
  exact (Hpop (Some (JNum 1)) None 9 [] 0%nat eq_refl).
Defined.

Module PoolExamples.
Local Open Scope string_scope.

(** The worker of line 1 hangs; the others return at once. *)
Definition worker : LineExecutionProcessPool.Worker :=
  LineExecutionProcessPool.mkWorker
    (fun line => if Z.eqb line 1 then None else Some 0)
    (fun line inputs => LineExecutionProcessPool.mkLineResult line Completed inputs None).

Definition lines : list (Z * json) := [(0, JNum 10); (1, JNum 11); (2, JNum 12)].

End PoolExamples.

(** C3: for every batch and per-line timeout, the pool yields one result per
    line; a line whose worker does not return within [line_timeout_sec]
    gets a [Failed] result whose error is [LineExecutionTimeoutError] with
    code ["UserError"] and message
    ["Line {line_number} execution timeout for exceeding {timeout} seconds"],
    and every other line keeps its worker's result: the batch goes on. *)
Theorem pool_line_timeout_failed_result :
  forall (w : LineExecutionProcessPool.Worker) (line_timeout_sec : Z) (lines : list (Z * json)),
  length (LineExecutionProcessPool.run w line_timeout_sec lines) = length lines /\
  forall (k : nat) (line : Z) (inputs : json),
  nth_error lines k = Some (line, inputs) ->
  (LineExecutionProcessPool.returns_within w line_timeout_sec line = false ->
   exists r e, nth_error (LineExecutionProcessPool.run w line_timeout_sec lines) k = Some r /\
     LineExecutionProcessPool.index r = line /\
     LineExecutionProcessPool.status r = Failed /\
     LineExecutionProcessPool.error r = Some e /\
     LineExecutionProcessPool.error_type e = "LineExecutionTimeoutError"%string /\
     LineExecutionProcessPool.code e = "UserError"%string /\
     LineExecutionProcessPool.message e =
       ("Line " ++ Str.str_Z line ++ " execution timeout for exceeding "
        ++ Str.str_Z line_timeout_sec ++ " seconds")%string) /\
  (LineExecutionProcessPool.returns_within w line_timeout_sec line = true ->
   nth_error (LineExecutionProcessPool.run w line_timeout_sec lines) k
     = Some (LineExecutionProcessPool.exec_line w line inputs)).
Proof.
  intros w T lines. split.
  - unfold LineExecutionProcessPool.run. apply length_map.
  - intros k line inputs Hk.
    unfold LineExecutionProcessPool.run. rewrite nth_error_map, Hk. simpl.
    unfold LineExecutionProcessPool.run_line. split; intros Hw; rewrite Hw; [| reflexivity].
    do 2 eexists. split; [reflexivity |]. repeat split.
Qed.

Lemma pool_line_timeout_failed_result_witness :
  nth_error (LineExecutionProcessPool.run PoolExamples.worker 1 PoolExamples.lines) 1
    = Some (LineExecutionProcessPool.mkLineResult 1 Failed JNull
              (Some (LineExecutionProcessPool.mkErrorDict
                       "Line 1 execution timeout for exceeding 1 seconds"
                       "UserError" "LineExecutionTimeoutError"))) /\
  nth_error (LineExecutionProcessPool.run PoolExamples.worker 1 PoolExamples.lines) 2
    = Some (LineExecutionProcessPool.mkLineResult 2 Completed (JNum 12) None) /\
  (exists r e, nth_error (LineExecutionProcessPool.run PoolExamples.worker 1 PoolExamples.lines) 1%nat
                 = Some r /\ LineExecutionProcessPool.error r = Some e /\
               LineExecutionProcessPool.code e = "UserError"%string).
Proof.
  destruct (pool_line_timeout_failed_result PoolExamples.worker 1 PoolExamples.lines) as [_ H].
  split; [vm_compute; reflexivity |].
  split.
  - destruct (H 2%nat 2 (JNum 12) eq_refl) as [_ H2]. apply H2. reflexivity.
  - destruct (H 1%nat 1 (JNum 11) eq_refl) as [H1 _].
    destruct (H1 eq_refl) as [r [e [Hr [_ [_ [He [_ [Hc _]]]]]]]].
    exists r, e. auto.
Defined.

Module PersistExamples.
Local Open Scope string_scope.

(** The terminated line run of line [k]. *)
Definition line_run (k : Z) : FlowRunInfo.t :=
  FlowRunInfo.mk ("flow_run_" ++ Str.str_Z k) Completed JNull (JObj [("x", JNum k)]) (JNum k) JNull
                 JNull "flow_run" "flow_run" "flow_run" "flow" (DateTime.mkDatetime 2023 6 1 12 0 1 0 None)
                 (DateTime.mkDatetime 2023 6 1 12 0 2 0 None) (Some k) JNull "" "" "" JNull JNull JNull false.

Definition four_lines : list FlowRunInfo.t := map line_run [0; 1; 2; 3].

(** Line 4, still running. *)
Definition running_line : FlowRunInfo.t :=
  FlowRunInfo.mk "flow_run_4" Running JNull (JObj [("x", JNum 4)]) JNull JNull
                 JNull "flow_run" "flow_run" "flow_run" "flow" (DateTime.mkDatetime 2023 6 1 12 0 1 0 None)
                 (DateTime.mkDatetime 2023 6 1 12 0 2 0 None) (Some 4) JNull "" "" "" JNull JNull JNull false.

Definition block_0_1 : string := "flow_artifacts/000000000_000000001.jsonl".
Definition block_2_3 : string := "flow_artifacts/000000002_000000003.jsonl".

End PersistExamples.

(** C4 (counterexample): persisting the 4 terminated line runs 0..3 with
    [LOCAL_STORAGE_BATCH_SIZE = 2] into [flow_artifacts] creates exactly the
    block files [000000000_000000001.jsonl] and [000000002_000000003.jsonl],
    but each holds a single record, that of the last line written to it
    (lines 1 and 3): [LineRunRecord.dump] opens its file with mode ["w"],
    and no file lock is taken on the way. *)
Theorem persist_flow_run_block_keeps_last_record :
  let (m, ops) := LocalStorage.persist_flow_runs 2 "flow_artifacts" PersistExamples.four_lines [] in
  map fst m = [PersistExamples.block_0_1; PersistExamples.block_2_3] /\
  LocalStorage.fs_get m PersistExamples.block_0_1
    = Some [LocalStorage.from_flow_run_info (PersistExamples.line_run 1)] /\
  LocalStorage.fs_get m PersistExamples.block_2_3
    = Some [LocalStorage.from_flow_run_info (PersistExamples.line_run 3)] /\
  length (filter LocalStorage.writes ops) = 4%nat /\
  existsb LocalStorage.takes_lock ops = false.
Proof. vm_compute. repeat split; reflexivity. Qed.

(** C10: for a line run whose status is not terminal (not Completed, Failed,
    Bypassed or Canceled), [persist_flow_run] only logs
    ["Line run is not terminated, skip persisting line run record."]: it
    writes no record, takes no lock, and leaves every file as it was. *)
Theorem persist_flow_run_not_terminated_noop :
  forall (batch_size : Z) (folder : string) (r : FlowRunInfo.t),
  ~ In (FlowRunInfo.status r) [Completed; Failed; Bypassed; Canceled] ->
  LocalStorage.persist_flow_run batch_size folder r
    = Some [LocalStorage.LogInfo "Line run is not terminated, skip persisting line run record."] /\
  forall m : LocalStorage.fs,
    LocalStorage.apply_ops m [LocalStorage.LogInfo
                                "Line run is not terminated, skip persisting line run record."] = m /\
    filter LocalStorage.writes
      [LocalStorage.LogInfo "Line run is not terminated, skip persisting line run record."] = [] /\
    existsb LocalStorage.takes_lock
      [LocalStorage.LogInfo "Line run is not terminated, skip persisting line run record."] = false.
Proof.
  intros B folder r Hs.
  assert (Ht : is_terminated (FlowRunInfo.status r) = false).
  { destruct (FlowRunInfo.status r); try reflexivity; exfalso; apply Hs; simpl; tauto. }
  split.
  - unfold LocalStorage.persist_flow_run. rewrite Ht. reflexivity.
  - intros m. repeat split.
Qed.

Lemma persist_flow_run_not_terminated_noop_witness :
  LocalStorage.persist_flow_runs 2 "flow_artifacts" [PersistExamples.running_line]
    [(PersistExamples.block_0_1, [])]
  = ([(PersistExamples.block_0_1, [])],
     [LocalStorage.LogInfo "Line run is not terminated, skip persisting line run record."]).
Proof.
  destruct (persist_flow_run_not_terminated_noop 2 "flow_artifacts" PersistExamples.running_line)
    as [Hp Hm].
  - simpl. intros [H | [H | [H | [H | []]]]]; discriminate H.
  - cbn [LocalStorage.persist_flow_runs]. rewrite Hp. destruct (Hm [(PersistExamples.block_0_1, [])]) as [Ha _].
    rewrite Ha. reflexivity.
Defined.

Module Contains.
Import BatchInputsProcessor.
Local Open Scope string_scope.

Lemma append_assoc (a b c : string) : (a ++ b) ++ c = a ++ b ++ c.
Proof. induction a as [| x a IH]; simpl; congruence. Qed.

Lemma prefix_refl (s : string) : String.prefix s s = true.
Proof.
  induction s as [| c s IH]; simpl; [reflexivity |].
  destruct (ascii_dec c c) as [_ | n]; [exact IH | contradiction n; reflexivity].
Qed.

Lemma prefix_app_r (sub s t : string) : String.prefix sub s = true -> String.prefix sub (s ++ t) = true.
Proof.
  revert sub. induction s as [| c' s IH]; intros sub H.
  - destruct sub; [destruct t; reflexivity | discriminate H].
  - destruct sub as [| c sub]; [reflexivity |]. simpl in *.
    destruct (ascii_dec c c'); [apply IH; exact H | discriminate H].
Qed.

Lemma contains_app_r (s t sub : string) : contains s sub = true -> contains (s ++ t) sub = true.
Proof.
  induction s as [| c s IH]; simpl; intros H.
  - apply orb_true_iff in H as [H | H]; [| discriminate H].
    destruct sub; [destruct t; reflexivity | discriminate H].
  - apply orb_true_iff in H as [H | H].
    + apply orb_true_iff. left. exact (prefix_app_r _ (String c s) t H).
    + apply orb_true_iff. right. exact (IH H).
Qed.

Lemma contains_app_l (a s sub : string) : contains s sub = true -> contains (a ++ s) sub = true.
Proof.
  induction a as [| c a IH]; simpl; intros H; [exact H |].
  apply orb_true_iff. right. exact (IH H).
Qed.

Lemma contains_prefix (s t : string) : contains (s ++ t) s = true.
Proof.
  destruct s as [| c s]; [destruct t; reflexivity |].
  simpl. apply orb_true_iff. left.
  exact (prefix_app_r (String c s) (String c s) t (prefix_refl _)).
Qed.

Lemma join_in (sep x : string) (l : list string) :
  In x l -> exists a c, Str.join sep l = a ++ x ++ c.
Proof.
  induction l as [| y l IH]; intros H; [destruct H |].
  destruct l as [| z l].
  - destruct H as [<- | []]. exists "", "". simpl. rewrite StrFacts.append_empty. reflexivity.
  - destruct H as [<- | H].
    + exists "", (sep ++ Str.join sep (z :: l)). reflexivity.
    + destruct (IH H) as [a [c E]]. exists (y ++ sep ++ a), c.
      change (Str.join sep (y :: z :: l)) with (y ++ sep ++ Str.join sep (z :: l)).
      rewrite E, !append_assoc. reflexivity.
Qed.

Lemma lengths_message_lists (l : list (string * nat)) (k : string) (n : nat) :
  In (k, n) l ->
  contains (lengths_message l) ("'" ++ k ++ "': " ++ Str.str_Z (Z.of_nat n)) = true.
Proof.
  intros H. unfold lengths_message, lengths_repr.
  do 3 apply contains_app_l. apply contains_app_r. apply contains_app_l.
  apply contains_app_r.
  assert (Hin : In ("'" ++ k ++ "': " ++ Str.str_Z (Z.of_nat n))
                   (map (fun kv => "'" ++ fst kv ++ "': " ++ Str.str_Z (Z.of_nat (snd kv))) l))
    by (apply (in_map (fun kv => "'" ++ fst kv ++ "': " ++ Str.str_Z (Z.of_nat (snd kv))) l (k, n)); exact H).
  destruct (join_in ", " _ _ Hin) as [a [c E]]. rewrite E.
  apply contains_app_l. apply contains_prefix.
Qed.

Lemma empty_list_message_mentions (k : string) :
  contains (empty_list_message k) "is an empty list" = true.
Proof. unfold empty_list_message. do 2 apply contains_app_l. vm_compute. reflexivity. Qed.

End Contains.

Module MergeExamples.
Local Open Scope string_scope.

(** Scenario 4 of the spec: [{"data": [{"q": "q1"}], "baseline": []}]. *)
Definition data_and_empty_baseline : list (string * list BatchInputsProcessor.record) :=
  [("data", [[("q", JStr "q1")]]); ("baseline", [])].

Definition unaligned : list (string * list BatchInputsProcessor.record) :=
  [("data", [[("question", JStr "q1"); ("answer", JStr "ans1")];
             [("question", JStr "q2"); ("answer", JStr "ans2")]]);
   ("baseline", [[("answer", JStr "baseline_ans2")]])].

End MergeExamples.

(** C5 (counterexample): with [{"data": [{"q": "q1"}], "baseline": []}]
    the lists without [line_number] have the differing lengths 1 and 0, yet
    the error raised is the empty-list one, which lists no lengths. *)
Lemma merge_empty_list_hides_lengths :
  BatchInputsProcessor.all_equal
    (map snd (BatchInputsProcessor.lengths_without_line_number MergeExamples.data_and_empty_baseline))
    = false /\
  BatchInputsProcessor._merge_input_dicts_by_line MergeExamples.data_and_empty_baseline
    = BatchInputsProcessor.InputMappingError (BatchInputsProcessor.empty_list_message "baseline") /\
  BatchInputsProcessor.contains (BatchInputsProcessor.empty_list_message "baseline") "List lengths" = false /\
  BatchInputsProcessor.contains (BatchInputsProcessor.empty_list_message "baseline") "'data': 1" = false.
Proof. vm_compute. repeat split; reflexivity. Qed.

(** C5 (amended): if some alias maps to an empty list, the merge fails
    with [InputMappingError] whose message says that alias's input
    ["is an empty list"]; otherwise, if the lists without [line_number]
    have differing lengths, it fails with [InputMappingError] whose message
    lists ['alias': length] for each of them. *)
Theorem merge_input_dicts_errors :
  forall d : list (string * list BatchInputsProcessor.record),
  ((exists k, In (k, []) d) ->
   exists k, In (k, []) d /\
     BatchInputsProcessor._merge_input_dicts_by_line d
       = BatchInputsProcessor.InputMappingError (BatchInputsProcessor.empty_list_message k) /\
     BatchInputsProcessor.contains (BatchInputsProcessor.empty_list_message k) "is an empty list" = true) /\
  ((forall k, ~ In (k, []) d) ->
   BatchInputsProcessor.all_equal (map snd (BatchInputsProcessor.lengths_without_line_number d)) = false ->
   BatchInputsProcessor._merge_input_dicts_by_line d
     = BatchInputsProcessor.InputMappingError
         (BatchInputsProcessor.lengths_message (BatchInputsProcessor.lengths_without_line_number d)) /\
   forall k n, In (k, n) (BatchInputsProcessor.lengths_without_line_number d) ->
     BatchInputsProcessor.contains
       (BatchInputsProcessor.lengths_message (BatchInputsProcessor.lengths_without_line_number d))
       ("'" ++ k ++ "': " ++ Str.str_Z (Z.of_nat n))%string = true).
Proof.
  intros d. unfold BatchInputsProcessor._merge_input_dicts_by_line.
  set (p := fun kv : string * list BatchInputsProcessor.record =>
              match snd kv with [] => true | _ => false end).
  split.
  - intros [k Hk].
    destruct (find p d) as [[k' l] |] eqn:E.
    + destruct (find_some p d E) as [Hin Hp].
      destruct l; [| discriminate Hp].
      exists k'. split; [exact Hin |]. split; [reflexivity |].
      apply Contains.empty_list_message_mentions.
    + exfalso. pose proof (find_none p d E (k, []) Hk) as H. discriminate H.
  - intros Hne Hlen.
    destruct (find p d) as [[k' l] |] eqn:E.
    + destruct (find_some p d E) as [Hin Hp].
      destruct l; [| discriminate Hp]. contradiction (Hne k').
    + rewrite Hlen. split; [reflexivity |].
      intros k n Hin. apply Contains.lengths_message_lists. exact Hin.
Qed.

Lemma merge_input_dicts_errors_witness :
  BatchInputsProcessor._merge_input_dicts_by_line MergeExamples.data_and_empty_baseline
    = BatchInputsProcessor.InputMappingError (BatchInputsProcessor.empty_list_message "baseline") /\
  BatchInputsProcessor.contains
    (BatchInputsProcessor.lengths_message
       (BatchInputsProcessor.lengths_without_line_number MergeExamples.unaligned))
    "'baseline': 1" = true.
Proof.
  split.
  - destruct (merge_input_dicts_errors MergeExamples.data_and_empty_baseline) as [H _].
    destruct (H (ex_intro _ "baseline"%string (or_intror (or_introl eq_refl))))
      as [k [Hk [Hm _]]].
    rewrite Hm. simpl in Hk.
    destruct Hk as [Hk | [Hk | []]]; [discriminate Hk | injection Hk as <-; reflexivity].
  - destruct (merge_input_dicts_errors MergeExamples.unaligned) as [_ H].
    destruct H as [_ H].
    + intros k Hk. simpl in Hk. destruct Hk as [Hk | [Hk | []]]; discriminate Hk.
    + vm_compute. reflexivity.
    + apply (H "baseline"%string 1%nat). vm_compute. right. left. reflexivity.
Defined.

Module OutputPathExamples.
Local Open Scope string_scope.

Definition home : RunOutputPath.path := ["home"; "u"].
Definition flow : RunOutputPath.path := ["home"; "u"; "flow"].
Definition cwd : RunOutputPath.path := ["home"; "u"].

(** A configured output path that names the flow directory once resolved. *)
Definition flow_dir_dot : string := "${flow_directory}/.".

End OutputPathExamples.

(** C6 (code bug): the value ["${flow_directory}/."] passes [_validate]
    and is stored by [set_config], although substituting the macro and
    resolving gives the flow directory itself, which [_validate]'s own
    message says cannot be the run output path; no [InvalidConfigValue] is
    raised, and at run time [_generate_output_path] falls back to
    [$HOME/.promptflow/.runs/<name>]. *)
Lemma output_path_flow_dir_not_rejected :
  RunOutputPath._validate RunOutputPath.RUN_OUTPUT_PATH OutputPathExamples.flow_dir_dot = None /\
  RunOutputPath.set_config [] RunOutputPath.RUN_OUTPUT_PATH OutputPathExamples.flow_dir_dot
    = inr [(RunOutputPath.RUN_OUTPUT_PATH, OutputPathExamples.flow_dir_dot)] /\
  RunOutputPath.resolve_text OutputPathExamples.cwd
    (Str.replace OutputPathExamples.flow_dir_dot RunOutputPath.FLOW_DIRECTORY_MACRO_IN_CONFIG
       (RunOutputPath.as_posix (RunOutputPath.resolve OutputPathExamples.flow)))
    = RunOutputPath.resolve OutputPathExamples.flow /\
  RunOutputPath._generate_output_path (Some OutputPathExamples.flow_dir_dot) OutputPathExamples.flow
    OutputPathExamples.cwd OutputPathExamples.home "run1" (fun _ => true)
    = ["home"; "u"; ".promptflow"; ".runs"; "run1"]%string.
Proof. vm_compute. repeat split; reflexivity. Qed.



(* ------------------------------------------------------------------ *)
(** ** Further properties of the code *)

(** *** The tracer's shape *)

Module TracerInv.
Import Tracer.

(** [c] is among the [children] of the trace stored at [p]. *)
Definition edge (h : list Trace) (p c : nat) : Prop :=
  exists t cs, nth_error h p = Some t /\ children t = Some cs /\ In c cs.

(** Each element of the list is a child of the one before it, starting from [p]. *)
Fixpoint links (h : list Trace) (p : nat) (l : list nat) : Prop :=
  match l with
  | [] => True
  | c :: l' => edge h p c /\ links h c l'
  end.

Fixpoint lastd (p : nat) (l : list nat) : nat :=
  match l with [] => p | x :: l' => lastd x l' end.

(** What the tracer keeps true: the stack and the roots point into the
    heap, and the stack goes from a root trace down through its children. *)
Definition inv (st : State) : Prop :=
  match active st with
  | None => True
  | Some obj =>
      Forall (fun i => (i < length (heap st))%nat) (_trace_stack obj) /\
      Forall (fun i => (i < length (heap st))%nat) (_traces obj) /\
      match _trace_stack obj with
      | [] => True
      | r :: rest => In r (_traces obj) /\ links (heap st) r rest
      end
  end.

(** The heap [h'] keeps every trace of [h], with at least its children. *)
Definition edges_kept (h h' : list Trace) : Prop :=
  forall i t cs, nth_error h i = Some t -> children t = Some cs ->
    exists t' cs', nth_error h' i = Some t' /\ children t' = Some cs' /\ incl cs cs'.

Lemma links_kept (h h' : list Trace) (p : nat) (l : list nat) :
  edges_kept h h' -> links h p l -> links h' p l.
Proof.
  intros E. revert p. induction l as [| c l IH]; intros p; simpl; [auto |].
  intros [[t [cs [Ht [Hc Hin]]]] Hl]. split; [| exact (IH c Hl)].
  destruct (E _ _ _ Ht Hc) as [t' [cs' [Ht' [Hc' Hincl]]]].
  exists t', cs'. auto.
Qed.

Lemma lastd_snoc (p x : nat) (l : list nat) : lastd p (l ++ [x]) = x.
Proof. revert p. induction l as [| y l IH]; intros p; simpl; auto. Qed.

Lemma last_opt_lastd (r : nat) (l : list nat) : last_opt (r :: l) = Some (lastd r l).
Proof.
  induction l as [| x l _] using rev_ind; [reflexivity |].
  change (r :: l ++ [x]) with ((r :: l) ++ [x]).
  rewrite TracerFacts.last_opt_app, lastd_snoc. reflexivity.
Qed.

Lemma links_snoc (h : list Trace) (p c : nat) (l : list nat) :
  links h p l -> edge h (lastd p l) c -> links h p (l ++ [c]).
Proof.
  revert p. induction l as [| x l IH]; intros p; simpl.
  - intros _ He. auto.
  - intros [He Hl] Hlast. split; [exact He | exact (IH x Hl Hlast)].
Qed.

Lemma links_prefix (h : list Trace) (p : nat) (l1 l2 : list nat) :
  links h p (l1 ++ l2) -> links h p l1.
Proof.
  revert p. induction l1 as [| x l IH]; intros p; simpl; [auto |].
  intros [He Hl]. split; [exact He | exact (IH x Hl)].
Qed.

Lemma edges_kept_refl (h : list Trace) : edges_kept h h.
Proof. intros i t cs Ht Hc. exists t, cs. repeat split; auto. apply incl_refl. Qed.

Lemma edges_kept_trans (h1 h2 h3 : list Trace) :
  edges_kept h1 h2 -> edges_kept h2 h3 -> edges_kept h1 h3.
Proof.
  intros E1 E2 i t cs Ht Hc.
  destruct (E1 _ _ _ Ht Hc) as [t2 [cs2 [Ht2 [Hc2 I2]]]].
  destruct (E2 _ _ _ Ht2 Hc2) as [t3 [cs3 [Ht3 [Hc3 I3]]]].
  exists t3, cs3. repeat split; auto. eapply incl_tran; eauto.
Qed.

Lemma edges_kept_app (h l : list Trace) : edges_kept h (h ++ l)%list.
Proof.
  intros i t cs Ht Hc. exists t, cs. repeat split; auto; [| apply incl_refl].
  rewrite nth_error_app1; [exact Ht | apply nth_error_Some; congruence].
Qed.

Lemma edges_kept_update (h : list Trace) (j : nat) (f : Trace -> Trace) :
  (forall t, children (f t) = children t) -> edges_kept h (update_trace h j f).
Proof.
  intros Hf i t cs Ht Hc. destruct (Nat.eq_dec j i) as [<- | Hne].
  - exists (f t), cs. rewrite (TracerFacts.update_trace_eq _ _ _ _ Ht), Hf.
    repeat split; auto. apply incl_refl.
  - exists t, cs. rewrite TracerFacts.update_trace_neq by exact Hne. repeat split; auto.
    apply incl_refl.
Qed.

Definition add_child (id : nat) (p : Trace) : Trace :=
  with_children p (Some ((match children p with Some c => c | None => [] end) ++ [id])%list).

Lemma edges_kept_add_child (h : list Trace) (j id : nat) :
  edges_kept h (update_trace h j (add_child id)).
Proof.
  intros i t cs Ht Hc. destruct (Nat.eq_dec j i) as [<- | Hne].
  - exists (add_child id t), (cs ++ [id])%list.
    rewrite (TracerFacts.update_trace_eq _ _ _ _ Ht). unfold add_child. simpl. rewrite Hc.
    repeat split; auto. intros x Hx. apply in_or_app. left. exact Hx.
  - exists t, cs. rewrite TracerFacts.update_trace_neq by exact Hne. repeat split; auto.
    apply incl_refl.
Qed.

Lemma edge_add_child (h : list Trace) (j id : nat) :
  (j < length h)%nat -> edge (update_trace h j (add_child id)) j id.
Proof.
  intros Hj. destruct (TracerFacts.in_heap _ _ Hj) as [t Ht].
  exists (add_child id t), ((match children t with Some c => c | None => [] end) ++ [id])%list.
  rewrite (TracerFacts.update_trace_eq _ _ _ _ Ht). repeat split; auto.
  apply in_or_app. right. left. reflexivity.
Qed.

(** The heap after [pop] closes the trace [top]. *)
Definition pop_heap (output : option json) (err : option (string * string)) (now : Z)
  (h : list Trace) (top : nat) : list Trace :=
  let h1 := match output with
            | Some o => update_trace h top (fun t => with_output t o)
            | None => h end in
  let h2 := match err with
            | Some (m, ty) => update_trace h1 top (fun t => with_error t (_format_error m ty))
            | None => h1 end in
  update_trace h2 top (fun t => with_end_time t now).

Definition closed (output : option json) (err : option (string * string)) (now : Z) (t : Trace)
  : Trace :=
  let t1 := match output with Some o => with_output t o | None => t end in
  let t2 := match err with Some (m, ty) => with_error t1 (_format_error m ty) | None => t1 end in
  with_end_time t2 now.

Lemma pop_unfold (output : option json) (err : option (string * string)) (now : Z) (st : State) :
  pop output err now st =
  match active st with
  | None => None
  | Some obj =>
      match last_opt (_trace_stack obj) with
      | None => None
      | Some top =>
          Some (mkState (Some (mkTracer (_run_id obj) (_node_name obj) (_traces obj)
                                        (removelast (_trace_stack obj))))
                        (pop_heap output err now (heap st) top))
      end
  end.
Proof. reflexivity. Qed.

Lemma pop_heap_at (output : option json) (err : option (string * string)) (now : Z)
  (h : list Trace) (i : nat) (t : Trace) :
  nth_error h i = Some t -> nth_error (pop_heap output err now h i) i = Some (closed output err now t).
Proof.
  intros Ht. unfold pop_heap, closed.
  destruct output as [o |], err as [[m ty] |];
    repeat (erewrite TracerFacts.update_trace_eq; [reflexivity |]);
    repeat (erewrite TracerFacts.update_trace_eq; [|]); try reflexivity; exact Ht.
Qed.

Lemma pop_heap_other (output : option json) (err : option (string * string)) (now : Z)
  (h : list Trace) (i j : nat) :
  i <> j -> nth_error (pop_heap output err now h i) j = nth_error h j.
Proof.
  intros Hij. unfold pop_heap.
  destruct output, err as [[m ty] |]; rewrite ?TracerFacts.update_trace_neq by exact Hij; reflexivity.
Qed.

Lemma Forall_lt_mono (l : list nat) (n m : nat) :
  (n <= m)%nat -> Forall (fun i => (i < n)%nat) l -> Forall (fun i => (i < m)%nat) l.
Proof. intros Hnm H. eapply Forall_impl; [| exact H]. simpl. intros. lia. Qed.

End TracerInv.

Lemma Forall_removelast {A} (P : A -> Prop) (l : list A) : Forall P l -> Forall P (removelast l).
Proof.
  destruct l as [| x l] using rev_ind; [auto |].
  rewrite removelast_last, Forall_app. intros [H _]. exact H.
Qed.

(** The tracer keeps its shape: from a state where it holds, every
    [start_tracing], [push], [pop] and [end_tracing] leads to a state where
    the stack and the root list point to stored traces, and the stack runs
    from a root trace down through parent-child links, so the trace pushed
    next always becomes a child of the innermost open trace. *)
Theorem tracer_inv_preserved :
  forall st : Tracer.State, TracerInv.inv st ->
  (forall run_id node, TracerInv.inv (Tracer.start_tracing run_id node st)) /\
  (forall trace now, TracerInv.inv (Tracer.push trace now st)) /\
  (forall output err now st', Tracer.pop output err now st = Some st' -> TracerInv.inv st') /\
  (forall run_id, TracerInv.inv (snd (Tracer.end_tracing run_id st))).
Proof.
  intros st Hinv. split; [| split; [| split]].
  - intros r n. unfold Tracer.start_tracing.
    destruct (Tracer.active st) eqn:Ha; [exact Hinv |].
    unfold TracerInv.inv. simpl. auto.
  - intros trace now. unfold Tracer.push.
    destruct (Tracer.active st) as [obj |] eqn:Ha; [| exact Hinv].
    unfold TracerInv.inv in Hinv. rewrite Ha in Hinv. destruct Hinv as [Hs [Hr Hc]].
    unfold Tracer._push.
    set (trace' := if Z.eqb (Tracer.start_time trace) 0
                   then Tracer.with_start_time trace now else trace).
    set (h := Tracer.heap st) in *.
    destruct (Tracer._trace_stack obj) as [| r rest] eqn:Estack.
    + simpl. unfold TracerInv.inv. simpl. rewrite length_app. simpl.
      repeat split.
      * constructor; [lia | constructor].
      * apply Forall_app. split; [eapply TracerInv.Forall_lt_mono; [| exact Hr]; lia |].
        constructor; [lia | constructor].
      * apply in_or_app. right. left. reflexivity.
    + rewrite TracerInv.last_opt_lastd. unfold TracerInv.inv. simpl.
      assert (Htop : (TracerInv.lastd r rest < length h)%nat).
      { rewrite Forall_forall in Hs. apply Hs.
        destruct rest as [| x l] using rev_ind; [left; reflexivity |].
        rewrite TracerInv.lastd_snoc. right. apply in_or_app. right. left. reflexivity. }
      assert (Hlen : length (Tracer.update_trace (h ++ [trace'])%list (TracerInv.lastd r rest)
                                (TracerInv.add_child (length h))) = S (length h)).
      { rewrite TracerFacts.update_trace_length, length_app. simpl. lia. }
      change (fun p : Tracer.Trace =>
                Tracer.with_children p
                  (Some ((match Tracer.children p with Some c => c | None => [] end)
                           ++ [length h])%list))
        with (TracerInv.add_child (length h)).
      rewrite Hlen. destruct Hc as [Hin Hl]. repeat split.
      * rewrite app_comm_cons. apply Forall_app. split; [eapply TracerInv.Forall_lt_mono; [| exact Hs]; lia |].
        constructor; [lia | constructor].
      * eapply TracerInv.Forall_lt_mono; [| exact Hr]. lia.
      * exact Hin.
      * apply TracerInv.links_snoc.
        -- eapply TracerInv.links_kept; [| exact Hl].
           eapply TracerInv.edges_kept_trans; [apply TracerInv.edges_kept_app |].
           apply TracerInv.edges_kept_add_child.
        -- apply TracerInv.edge_add_child. rewrite length_app. simpl. lia.
  - intros output err now st' Hpop. unfold Tracer.pop in Hpop.
    destruct (Tracer.active st) as [obj |] eqn:Ha; [| discriminate Hpop].
    unfold TracerInv.inv in Hinv. rewrite Ha in Hinv. destruct Hinv as [Hs [Hr Hc]].
    destruct (Tracer.last_opt (Tracer._trace_stack obj)) as [top |] eqn:Et; [| discriminate Hpop].
    injection Hpop as <-.
    set (h1 := match output with
               | Some o => Tracer.update_trace (Tracer.heap st) top (fun t => Tracer.with_output t o)
               | None => Tracer.heap st end).
    set (h2 := match err with
               | Some (m, ty) => Tracer.update_trace h1 top
                                   (fun t => Tracer.with_error t (Tracer._format_error m ty))
               | None => h1 end).
    assert (E1 : TracerInv.edges_kept (Tracer.heap st) h1 /\ length h1 = length (Tracer.heap st)).
    { subst h1. destruct output; split;
        try apply TracerInv.edges_kept_refl; try reflexivity;
        try (apply TracerInv.edges_kept_update; reflexivity);
        apply TracerFacts.update_trace_length. }
    assert (E2 : TracerInv.edges_kept h1 h2 /\ length h2 = length h1).
    { subst h2. destruct err as [[m ty] |]; split;
        try apply TracerInv.edges_kept_refl; try reflexivity;
        try (apply TracerInv.edges_kept_update; reflexivity);
        apply TracerFacts.update_trace_length. }
    destruct E1 as [K1 L1], E2 as [K2 L2].
    unfold TracerInv.inv. simpl. rewrite TracerFacts.update_trace_length, L2, L1.
    repeat split; [apply Forall_removelast; exact Hs | exact Hr |].
    destruct (Tracer._trace_stack obj) as [| r rest]; [exact I |].
    destruct rest as [| x rest]; [exact I |].
    destruct Hc as [Hin Hl]. split; [exact Hin |].
    eapply TracerInv.links_kept.
    + eapply TracerInv.edges_kept_trans; [exact K1 |].
      eapply TracerInv.edges_kept_trans; [exact K2 |].
      apply TracerInv.edges_kept_update. reflexivity.
    + apply (TracerInv.links_prefix _ _ _ [List.last (x :: rest) 0%nat]).
      rewrite <- app_removelast_last by discriminate. exact Hl.
  - intros run_id. unfold Tracer.end_tracing.
    destruct (Tracer.active st) as [obj |] eqn:Ha; [| exact Hinv].
    destruct run_id as [r |]; [destruct (negb _); [exact Hinv |] |]; exact I.
Qed.

Lemma tracer_inv_preserved_witness :
  TracerInv.inv (Tracer.push (Tracer.mkTrace "tool" "TOOL" 0 None [] None None None None) 7
                   (Tracer.start_tracing "run" None (Tracer.mkState None []))).
Proof.
  destruct (tracer_inv_preserved (Tracer.mkState None []) I) as [Hs _].
  destruct (tracer_inv_preserved _ (Hs "run"%string None)) as [_ [Hp _]].
  apply Hp.
Defined.

(** A [push] followed by a [pop] restores the tracer's stack, and the
    pushed trace, stored at the next heap index, is closed: its end time is
    the pop time, it carries the given output and formatted error, its
    start time is the push time when it had none, and it keeps its name and
    inputs.  No other stored trace changes, except the parent trace, to
    which the new one was attached. *)
Theorem tracer_push_then_pop :
  forall (st : Tracer.State) (obj : Tracer.Tracer) (trace : Tracer.Trace) (now1 now2 : Z)
         (output : option json) (err : option (string * string)),
  Tracer.active st = Some obj -> TracerInv.inv st ->
  exists st' obj' t,
    Tracer.pop output err now2 (Tracer.push trace now1 st) = Some st' /\
    Tracer.active st' = Some obj' /\
    Tracer._trace_stack obj' = Tracer._trace_stack obj /\
    Tracer._run_id obj' = Tracer._run_id obj /\
    nth_error (Tracer.heap st') (length (Tracer.heap st)) = Some t /\
    Tracer.end_time t = Some now2 /\
    Tracer.start_time t = (if Z.eqb (Tracer.start_time trace) 0 then now1
                           else Tracer.start_time trace) /\
    (forall o, output = Some o -> Tracer.output t = Some o) /\
    (forall m ty, err = Some (m, ty) -> Tracer.error t = Some (Tracer._format_error m ty)) /\
    Tracer.name t = Tracer.name trace /\ Tracer.inputs t = Tracer.inputs trace /\
    (forall i, (i < length (Tracer.heap st))%nat -> Tracer.last_opt (Tracer._trace_stack obj) <> Some i ->
       nth_error (Tracer.heap st') i = nth_error (Tracer.heap st) i).
Proof.
  intros st obj trace now1 now2 output err Ha Hinv.
  unfold TracerInv.inv in Hinv. rewrite Ha in Hinv. destruct Hinv as [Hs _].
  unfold Tracer.push. rewrite Ha. unfold Tracer._push.
  set (trace' := if Z.eqb (Tracer.start_time trace) 0
                 then Tracer.with_start_time trace now1 else trace).
  set (h := Tracer.heap st) in *.
  assert (Hfields : forall t', Tracer.name t' = Tracer.name trace' -> Tracer.inputs t' = Tracer.inputs trace' ->
            Tracer.start_time t' = Tracer.start_time trace' ->
            Tracer.start_time t' = (if Z.eqb (Tracer.start_time trace) 0 then now1
                                    else Tracer.start_time trace) /\
            Tracer.name t' = Tracer.name trace /\ Tracer.inputs t' = Tracer.inputs trace).
  { intros t' E1 E2 E3. rewrite E1, E2, E3. subst trace'.
    destruct (Z.eqb (Tracer.start_time trace) 0); repeat split; reflexivity. }
  destruct (Tracer.last_opt (Tracer._trace_stack obj)) as [top |] eqn:Et.
  - assert (Htop : (top < length h)%nat).
    { rewrite Forall_forall in Hs. apply Hs.
      destruct (Tracer._trace_stack obj) as [| r rest]; [discriminate Et |].
      rewrite TracerInv.last_opt_lastd in Et. injection Et as <-.
      destruct rest as [| x l] using rev_ind; [left; reflexivity |].
      rewrite TracerInv.lastd_snoc. right. apply in_or_app. right. left. reflexivity. }
    rewrite TracerInv.pop_unfold. simpl. rewrite TracerFacts.last_opt_app.
    assert (Hid : nth_error (Tracer.update_trace (h ++ [trace'])%list top
                   (fun p => Tracer.with_children p
                      (Some ((match Tracer.children p with Some c => c | None => [] end)
                             ++ [length h])%list))) (length h) = Some trace').
    { rewrite TracerFacts.update_trace_neq by lia. apply TracerFacts.nth_error_app_length. }
    do 3 eexists. split; [reflexivity |]. simpl. split; [reflexivity |].
    split; [apply removelast_last |]. split; [reflexivity |].
    split; [exact (TracerInv.pop_heap_at _ _ _ _ _ _ Hid) |].
    unfold TracerInv.closed.
    destruct (Hfields (TracerInv.closed output err now2 trace')) as [F1 [F2 F3]];
      try (unfold TracerInv.closed; destruct output, err as [[m ty] |]; reflexivity).
    unfold TracerInv.closed in F1, F2, F3.
    split; [reflexivity |]. split; [exact F1 |].
    split; [intros o ->; destruct err as [[m ty] |]; reflexivity |].
    split; [intros m ty ->; reflexivity |].
    split; [exact F2 |]. split; [exact F3 |].
    intros i Hi Hne. rewrite TracerInv.pop_heap_other by lia.
    rewrite TracerFacts.update_trace_neq by congruence.
    apply nth_error_app1. exact Hi.
  - rewrite TracerInv.pop_unfold. simpl. rewrite TracerFacts.last_opt_app.
    apply TracerFacts.last_opt_nil_iff in Et. rewrite Et.
    set (t0 := Tracer.with_node_name trace' (Tracer._node_name obj)).
    assert (Hid : nth_error (h ++ [t0])%list (length h) = Some t0)
      by apply TracerFacts.nth_error_app_length.
    do 3 eexists. split; [reflexivity |]. simpl. split; [reflexivity |].
    split; [reflexivity |]. split; [reflexivity |].
    split; [exact (TracerInv.pop_heap_at _ _ _ _ _ _ Hid) |].
    destruct (Hfields (TracerInv.closed output err now2 t0)) as [F1 [F2 F3]];
      try (unfold TracerInv.closed; destruct output, err as [[m ty] |]; reflexivity).
    unfold TracerInv.closed in F1, F2, F3.
    split; [reflexivity |]. split; [exact F1 |].
    split; [intros o ->; destruct err as [[m ty] |]; reflexivity |].
    split; [intros m ty ->; reflexivity |].
    split; [exact F2 |]. split; [exact F3 |].
    intros i Hi _. rewrite TracerInv.pop_heap_other by lia.
    apply nth_error_app1. exact Hi.
Qed.

Lemma tracer_push_then_pop_witness :
  exists st' obj' t,
    Tracer.pop (Some (JNum 1)) None 9
      (Tracer.push (Tracer.mkTrace "tool" "TOOL" 0 None [] None None None None) 7
                   (Tracer.start_tracing "run" None (Tracer.mkState None []))) = Some st' /\
    Tracer.active st' = Some obj' /\ Tracer._trace_stack obj' = [] /\ Tracer._run_id obj' = "run"%string /\
    nth_error (Tracer.heap st') 0 = Some t /\ Tracer.end_time t = Some 9 /\ Tracer.start_time t = 7.
Proof.
  destruct (tracer_push_then_pop (Tracer.start_tracing "run" None (Tracer.mkState None []))
              (Tracer.mkTracer "run" None [] []) (Tracer.mkTrace "tool" "TOOL" 0 None [] None None None None)
              7 9 (Some (JNum 1)) None eq_refl ltac:(repeat constructor))
    as [st' [obj' [t [H1 [H2 [H3 [H4 [H5 [H6 [H7 _]]]]]]]]]].
  exists st', obj', t. repeat split; assumption.
Defined.

(** *** The node run [invoke_tool] records *)

(** Whatever happens in [invoke_tool] (cache hit, tool returning, tool
    raising), its [finally] clause persists exactly one node run record:
    its run id is the generated node run id, its parent is
    [{run_id}_{line_number}] (the flow run id without a line number), its
    index is the line number, and it is [Completed] with the returned value
    or [Failed] with the raised error. *)
Theorem invoke_tool_persists_one_node_run :
  forall (self : FlowExecutionContext.t) (node : Node) (f : CacheManager.Tool)
         (kwargs : list (string * json)) (uuid4 : string) (st : FlowExecutionContext.ExecState),
  exists ri,
    FlowExecutionContext.es_persisted (snd (FlowExecutionContext.invoke_tool self node f kwargs uuid4 st))
      = ri :: FlowExecutionContext.es_persisted st /\
    FlowExecutionContext.nr_run_id ri = FlowExecutionContext._generate_node_run_id self node uuid4 /\
    FlowExecutionContext.nr_node ri = node_name node /\
    FlowExecutionContext.nr_flow_run_id ri = FlowExecutionContext._run_id self /\
    FlowExecutionContext.nr_parent_run_id ri =
      match FlowExecutionContext._line_number self with
      | Some l => (FlowExecutionContext._run_id self ++ "_" ++ Str.str_Z l)%string
      | None => FlowExecutionContext._run_id self
      end /\
    FlowExecutionContext.nr_index ri = FlowExecutionContext._line_number self /\
    (forall v, fst (FlowExecutionContext.invoke_tool self node f kwargs uuid4 st)
                 = FlowExecutionContext.Returned v ->
       FlowExecutionContext.nr_status ri = Completed /\ FlowExecutionContext.nr_output ri = v /\
       FlowExecutionContext.nr_error ri = None) /\
    (forall e, fst (FlowExecutionContext.invoke_tool self node f kwargs uuid4 st)
                 = FlowExecutionContext.Raised e ->
       FlowExecutionContext.nr_status ri = Failed /\ FlowExecutionContext.nr_error ri = Some e).
Proof.
  intros self node f kwargs uuid4 st.
  unfold FlowExecutionContext.invoke_tool.
  set (hit := if enable_cache node then _ else None).
  destruct hit as [cr |].
  - eexists. simpl. split; [reflexivity |].
    do 5 (split; [reflexivity |]). split.
    + intros v Hv. injection Hv as <-. repeat split.
    + intros e He. discriminate He.
  - destruct (CacheManager.call f kwargs) as [v | e]; eexists; simpl; split; try reflexivity;
      do 5 (split; [reflexivity |]); split.
    + intros v' Hv. injection Hv as <-. repeat split.
    + intros e' He. discriminate He.
    + intros v' Hv. discriminate Hv.
    + intros e' He. injection He as <-. repeat split.
Qed.

(** *** Zero-padded line numbers *)

Module ZfillFacts.
Import Str.
Local Open Scope string_scope.

Definition zeros (k : nat) : string := string_of_list_ascii (repeat "0"%char k).

Lemma all_chars_app (p : ascii -> bool) (a b : string) :
  all_chars p (a ++ b) = all_chars p a && all_chars p b.
Proof. induction a as [| c a IH]; simpl; [reflexivity |]. rewrite IH. apply andb_assoc. Qed.

Lemma all_digits_zeros (k : nat) : all_chars is_digit (zeros k) = true.
Proof. induction k as [| k IH]; simpl; auto. Qed.

Lemma zfill_digits (s : string) (w : nat) :
  all_chars is_digit s = true -> zfill s w = zeros (w - String.length s) ++ s.
Proof.
  intros H. unfold zfill. fold (zeros (w - String.length s)).
  destruct s as [| c s']; [reflexivity |]. simpl in H.
  destruct c as [[] [] [] [] [] [] [] []]; simpl in H; first [reflexivity | discriminate H].
Qed.

Lemma parse_Z_digits (t : string) :
  all_chars is_digit t = true ->
  parse_Z t = option_map (fun u => Z.of_int (Decimal.Pos u)) (parse_uint t).
Proof.
  intros H. destruct t as [| c t']; [reflexivity |]. simpl in H.
  destruct c as [[] [] [] [] [] [] [] []]; simpl in H; first [reflexivity | discriminate H].
Qed.

Lemma parse_uint_zeros (k : nat) (t : string) :
  parse_uint (zeros k ++ t) = option_map (Nat.iter k Decimal.D0) (parse_uint t).
Proof.
  induction k as [| k IH]; simpl.
  - destruct (parse_uint t); reflexivity.
  - unfold zeros in IH. rewrite IH. destruct (parse_uint t); reflexivity.
Qed.

Lemma of_int_zeros (k : nat) (u : Decimal.uint) :
  Z.of_int (Decimal.Pos (Nat.iter k Decimal.D0 u)) = Z.of_int (Decimal.Pos u).
Proof. induction k as [| k IH]; [reflexivity |]. simpl Nat.iter. exact IH. Qed.

(** [int(str(n).zfill(w)) == n] for [n >= 0]. *)
Lemma parse_zfill (n : Z) (w : nat) : 0 <= n -> parse_Z (zfill (str_Z n) w) = Some n.
Proof.
  intros Hn.
  assert (Hu : exists u, Z.to_int n = Decimal.Pos u)
    by (destruct n; [eexists; reflexivity | eexists; reflexivity | lia]).
  destruct Hu as [u Hu].
  assert (Hs : str_Z n = string_of_uint u) by (unfold str_Z; rewrite Hu; reflexivity).
  rewrite Hs, zfill_digits by apply StrFacts.digits_string_of_uint.
  rewrite parse_Z_digits
    by (rewrite all_chars_app, all_digits_zeros, StrFacts.digits_string_of_uint; reflexivity).
  rewrite parse_uint_zeros, StrFacts.parse_uint_string_of_uint. simpl.
  change (Some (Z.of_int (Decimal.Pos (Nat.iter (w - String.length (string_of_uint u)) Decimal.D0 u))) = Some n).
  rewrite of_int_zeros, <- Hu, DecimalZ.of_to. reflexivity.
Qed.

Lemma zfill_inj (a b : Z) (w : nat) :
  0 <= a -> 0 <= b -> zfill (str_Z a) w = zfill (str_Z b) w -> a = b.
Proof.
  intros Ha Hb E. assert (P : parse_Z (zfill (str_Z a) w) = parse_Z (zfill (str_Z b) w)) by now rewrite E.
  rewrite !parse_zfill in P by assumption. congruence.
Qed.

Lemma zfill_no_underscore (n : Z) (w : nat) : 0 <= n -> no_underscore (zfill (str_Z n) w) = true.
Proof.
  intros Hn.
  destruct (StrFacts.str_Z_shape n) as [H | [d [E _]]].
  - rewrite zfill_digits by exact H. unfold no_underscore.
    apply (StrFacts.all_chars_impl is_digit); [apply StrFacts.digit_not_underscore |].
    rewrite all_chars_app, all_digits_zeros, H. reflexivity.
  - exfalso. unfold str_Z in E.
    destruct n; [discriminate E | | lia].
    simpl in E. destruct (Pos.to_uint p); discriminate E.
Qed.

Lemma string_length_app (a b : string) : String.length (a ++ b) = (String.length a + String.length b)%nat.
Proof. induction a as [| c a IH]; simpl; congruence. Qed.

Lemma append_cancel_r (a b s : string) : a ++ s = b ++ s -> a = b.
Proof.
  revert b. induction a as [| c a IH]; intros b E.
  - destruct b as [| c' b]; [reflexivity |].
    exfalso. apply (f_equal String.length) in E. simpl in E. rewrite string_length_app in E. lia.
  - destruct b as [| c' b].
    + exfalso. apply (f_equal String.length) in E. simpl in E. rewrite string_length_app in E. lia.
    + simpl in E. injection E as -> E. f_equal. exact (IH b E).
Qed.

(** Splitting at the first underscore. *)
Lemma split_first_underscore (a b x y : string) :
  no_underscore a = true -> no_underscore b = true ->
  a ++ "_" ++ x = b ++ "_" ++ y -> a = b /\ x = y.
Proof.
  revert b. induction a as [| c a IH]; intros b Ha Hb E.
  - destruct b as [| c' b]; [simpl in E; injection E; auto |].
    simpl in E. injection E as <- _. simpl in Hb. discriminate Hb.
  - destruct b as [| c' b].
    + simpl in E. injection E as -> _. simpl in Ha. discriminate Ha.
    + simpl in E. injection E as -> E. simpl in Ha, Hb.
      apply andb_prop in Ha as [_ Ha]. apply andb_prop in Hb as [_ Hb].
      destruct (IH b Ha Hb E) as [-> ->]. auto.
Qed.

End ZfillFacts.

(** *** Node run files and their lock *)

Module NodeRunFacts.
Import NodeStorage.
Local Open Scope string_scope.

Lemma lock_name_iff (n : Z) :
  0 <= n ->
  String.eqb (Str.zfill (Str.str_Z n) LocalStorage.LINE_NUMBER_WIDTH ++ ".jsonl")
             (Str.zfill "0" LocalStorage.LINE_NUMBER_WIDTH ++ ".jsonl") = Z.eqb n 0.
Proof.
  intros Hn. change "0" with (Str.str_Z 0).
  destruct (Z.eqb_spec n 0) as [-> | Hne]; [apply String.eqb_refl |].
  apply String.eqb_neq. intros E. apply ZfillFacts.append_cancel_r in E.
  apply ZfillFacts.zfill_inj in E; [contradiction | assumption | lia].
Qed.

Definition sample_node_run (index : option Z) : RunInfo.t :=
  RunInfo.mk "reduce" "flow_run" "flow_run_reduce_0" Completed JNull (JNum 1) JNull JNull
             "flow_run" (DateTime.mkDatetime 2023 6 1 12 0 0 0 None) (DateTime.mkDatetime 2023 6 1 12 0 1 0 None) index JNull ""
             None None JNull JNull JNull.

End NodeRunFacts.

(** [persist_node_run] writes the record of a node run to
    [<node_infos_folder>/<node>/<line>.jsonl], the line number (0 for a run
    without one, such as a reduce node's) zero-padded to nine digits.  For a
    line number [n >= 0], the write is enclosed between acquiring and
    releasing the lock file [<run name>.<node>.lock] exactly when [n] is 0,
    that is when the file is [000000000.jsonl]; every other line is written
    without a lock. *)
Theorem persist_node_run_lock (node_infos_folder : list string) (run_name : string) (r : RunInfo.t) :
  (forall l, RunInfo.index r = Some l -> 0 <= l) ->
  let n := match RunInfo.index r with None => 0 | Some l => l end in
  let path := (node_infos_folder ++ [RunInfo.node r;
                 (Str.zfill (Str.str_Z n) 9 ++ ".jsonl")%string])%list in
  let lock := (run_name ++ "."%string ++ RunInfo.node r ++ ".lock"%string)%string in
  NodeStorage.persist_node_run node_infos_folder run_name r =
  if Z.eqb n 0
  then [NodeStorage.AcquireLock lock; NodeStorage.WriteFile path (NodeStorage.from_run_info r);
        NodeStorage.ReleaseLock lock]
  else [NodeStorage.WriteFile path (NodeStorage.from_run_info r)].
Proof.
  intros Hidx n path lock.
  assert (Hn : 0 <= n) by (unfold n; destruct (RunInfo.index r) eqn:E; [apply Hidx; reflexivity | lia]).
  unfold NodeStorage.persist_node_run, NodeStorage.dump.
  cbn [NodeStorage.line_number NodeStorage.from_run_info NodeStorage.NodeName].
  fold n.
  assert (Hname : NodeStorage.name ((node_infos_folder ++ [RunInfo.node r]) ++
            [(Str.zfill (Str.str_Z n) LocalStorage.LINE_NUMBER_WIDTH ++ ".jsonl")%string])%list
          = (Str.zfill (Str.str_Z n) LocalStorage.LINE_NUMBER_WIDTH ++ ".jsonl")%string)
    by (unfold NodeStorage.name; apply last_last).
  rewrite Hname, NodeRunFacts.lock_name_iff by exact Hn.
  rewrite <- app_assoc. reflexivity.
Qed.

(** Witness: line 0 and a reduce run take the lock, line 12 does not. *)
Lemma persist_node_run_lock_witness :
  NodeStorage.persist_node_run ["node_artifacts"%string] "run"%string (NodeRunFacts.sample_node_run None) =
  [NodeStorage.AcquireLock "run.reduce.lock"%string;
   NodeStorage.WriteFile ["node_artifacts"%string; "reduce"%string; "000000000.jsonl"%string]
     (NodeStorage.from_run_info (NodeRunFacts.sample_node_run None));
   NodeStorage.ReleaseLock "run.reduce.lock"%string] /\
  NodeStorage.persist_node_run ["node_artifacts"%string] "run"%string (NodeRunFacts.sample_node_run (Some 12)) =
  [NodeStorage.WriteFile ["node_artifacts"%string; "reduce"%string; "000000012.jsonl"%string]
     (NodeStorage.from_run_info (NodeRunFacts.sample_node_run (Some 12)))].
Proof.
  split.
  - apply (persist_node_run_lock ["node_artifacts"%string] "run"%string
             (NodeRunFacts.sample_node_run None)).
    intros l E. discriminate E.
  - apply (persist_node_run_lock ["node_artifacts"%string] "run"%string
             (NodeRunFacts.sample_node_run (Some 12))).
    intros l E. injection E as <-. lia.
Defined.

(** *** Line run block files *)

Module BlockFacts.
Import LocalStorage.
Local Open Scope string_scope.

Lemma lower_bound_nonneg (b l : Z) : 0 < b -> 0 <= l -> 0 <= l / b * b.
Proof. intros Hb Hl. apply Z.mul_nonneg_nonneg; [apply Z.div_pos |]; lia. Qed.

Lemma fs_get_set (m : fs) (p q : string) (c : list LineRunRecord) :
  fs_get (fs_set m p c) q = if String.eqb p q then Some c else fs_get m q.
Proof.
  induction m as [| [q0 d] m IH]; simpl.
  - reflexivity.
  - destruct (String.eqb_spec q0 p) as [-> | Hne]; simpl.
    + destruct (String.eqb p q); reflexivity.
    + rewrite IH. destruct (String.eqb_spec q0 q) as [-> | Hq]; [| reflexivity].
      destruct (String.eqb_spec p q); congruence.
Qed.

Lemma persist_flow_runs_cons (b : Z) (folder : string) (r : FlowRunInfo.t) (rs : list FlowRunInfo.t) (m : fs) :
  fst (persist_flow_runs b folder (r :: rs) m) =
  fst (persist_flow_runs b folder rs
         (apply_ops m (match persist_flow_run b folder r with Some o => o | None => [] end))).
Proof. simpl. destruct (persist_flow_runs _ _ _ _); reflexivity. Qed.

Lemma persist_flow_runs_app (b : Z) (folder : string) (l1 l2 : list FlowRunInfo.t) (m : fs) :
  fst (persist_flow_runs b folder (l1 ++ l2) m) =
  fst (persist_flow_runs b folder l2 (fst (persist_flow_runs b folder l1 m))).
Proof.
  revert m. induction l1 as [| r l1 IH]; intros m; [reflexivity |].
  simpl app. rewrite !persist_flow_runs_cons. apply IH.
Qed.

(** The operations of one line: nothing, a log line, or one write of the
    line's own record into its block file. *)
Lemma persist_flow_run_ops (b : Z) (folder : string) (r : FlowRunInfo.t) (m : fs) :
  apply_ops m (match persist_flow_run b folder r with Some o => o | None => [] end) =
  match FlowRunInfo.index r with
  | Some n => if is_terminated (FlowRunInfo.status r)
              then fs_set m (folder ++ "/" ++ block_filename b n) [from_flow_run_info r]
              else m
  | None => m
  end.
Proof.
  unfold persist_flow_run. destruct (is_terminated (FlowRunInfo.status r)); simpl;
    destruct (FlowRunInfo.index r); reflexivity.
Qed.

Lemma persist_flow_runs_other (b : Z) (folder q : string) (rs : list FlowRunInfo.t) (m : fs) :
  (forall r n, In r rs -> FlowRunInfo.index r = Some n -> folder ++ "/" ++ block_filename b n <> q) ->
  fs_get (fst (persist_flow_runs b folder rs m)) q = fs_get m q.
Proof.
  revert m. induction rs as [| r rs IH]; intros m H; [reflexivity |].
  rewrite persist_flow_runs_cons, IH by (intros; eapply H; eauto; right; assumption).
  rewrite persist_flow_run_ops. destruct (FlowRunInfo.index r) as [n |] eqn:E; [| reflexivity].
  destruct (is_terminated _); [| reflexivity].
  rewrite fs_get_set. destruct (String.eqb_spec (folder ++ "/" ++ block_filename b n) q) as [Eq | _];
    [exfalso; exact (H r n (or_introl eq_refl) E Eq) | reflexivity].
Qed.

Lemma block_filename_inj (b l1 l2 : Z) :
  0 < b -> 0 <= l1 -> 0 <= l2 -> block_filename b l1 = block_filename b l2 -> l1 / b = l2 / b.
Proof.
  intros Hb H1 H2 E. unfold block_filename in E.
  apply ZfillFacts.split_first_underscore in E as [E _];
    [| apply ZfillFacts.zfill_no_underscore, lower_bound_nonneg; lia
     | apply ZfillFacts.zfill_no_underscore, lower_bound_nonneg; lia].
  apply ZfillFacts.zfill_inj in E; [| apply lower_bound_nonneg; lia | apply lower_bound_nonneg; lia].
  apply Z.mul_reg_r in E; lia.
Qed.

Definition line_run (k : Z) : FlowRunInfo.t :=
  FlowRunInfo.mk ("flow_run_" ++ Str.str_Z k) Completed JNull (JObj [("x", JNum k)]) (JNum k) JNull JNull
                 "flow_run" "flow_run" "flow_run" "flow" (DateTime.mkDatetime 2023 6 1 12 0 0 0 None)
                 (DateTime.mkDatetime 2023 6 1 12 0 1 0 None) (Some k) JNull "" "" "" JNull JNull JNull false.

End BlockFacts.

(** C4 (amended): [persist_flow_run] writes a terminated line run's
    record alone into its block file [<lower>_<upper>.jsonl], in one
    write (mode ["w"]) and without any file lock, so a block file keeps
    only the last record written to it.  With a batch size of 1, the
    setting the code is written for, line runs with distinct line numbers
    each end up as the single record of their own file [<l>_<l>.jsonl]. *)
Theorem persist_flow_run_one_record_per_file :
  (forall (batch_size : Z) (folder : string) (r : FlowRunInfo.t) (n : Z),
     is_terminated (FlowRunInfo.status r) = true -> FlowRunInfo.index r = Some n ->
     LocalStorage.persist_flow_run batch_size folder r =
       Some [LocalStorage.WriteFile (folder ++ "/" ++ LocalStorage.block_filename batch_size n)%string
               [LocalStorage.from_flow_run_info r]]) /\
  (forall (folder : string) (runs : list FlowRunInfo.t) (m : LocalStorage.fs)
          (r : FlowRunInfo.t) (n : Z),
     NoDup (flat_map (fun r' => match FlowRunInfo.index r' with Some l => [l] | None => [] end) runs) ->
     (forall r' n', In r' runs -> FlowRunInfo.index r' = Some n' -> 0 <= n') ->
     In r runs -> is_terminated (FlowRunInfo.status r) = true -> FlowRunInfo.index r = Some n ->
     LocalStorage.fs_get (fst (LocalStorage.persist_flow_runs 1 folder runs m))
       (folder ++ "/" ++ Str.zfill (Str.str_Z n) 9 ++ "_" ++ Str.zfill (Str.str_Z n) 9 ++ ".jsonl")%string
     = Some [LocalStorage.from_flow_run_info r]).
Proof.
  split.
  - intros B folder r n Ht Hi. unfold LocalStorage.persist_flow_run.
    assert (Hl : LocalStorage.line_number (LocalStorage.from_flow_run_info r) = Some n) by exact Hi.
    rewrite Ht. cbn [negb]. rewrite Hl. reflexivity.
  - intros folder runs m r n Hnd Hnn Hin Ht Hi.
    assert (Hname : LocalStorage.block_filename 1 n =
                    (Str.zfill (Str.str_Z n) 9 ++ "_" ++ Str.zfill (Str.str_Z n) 9 ++ ".jsonl")%string).
    { unfold LocalStorage.block_filename. rewrite Z.div_1_r, Z.mul_1_r, Z.add_simpl_r. reflexivity. }
    rewrite <- Hname.
    destruct (in_split r runs Hin) as [pre [post ->]].
    rewrite BlockFacts.persist_flow_runs_app, BlockFacts.persist_flow_runs_cons.
    rewrite BlockFacts.persist_flow_runs_other.
    + rewrite BlockFacts.persist_flow_run_ops, Hi, Ht, BlockFacts.fs_get_set, String.eqb_refl.
      reflexivity.
    + intros r' n' Hin' Hi' E. apply StrFacts.append_cancel_l in E. injection E as E.
      apply (BlockFacts.block_filename_inj 1 n' n ltac:(lia)) in E;
        [| apply (Hnn r'); [apply in_or_app; right; right; exact Hin' | exact Hi']
         | apply (Hnn r); [apply in_or_app; right; left; reflexivity | exact Hi]].
      rewrite !Z.div_1_r in E. subst n'.
      rewrite flat_map_app in Hnd. cbn [flat_map] in Hnd. rewrite Hi in Hnd. cbn [app] in Hnd.
      apply NoDup_remove_2 in Hnd.
      apply Hnd. apply in_or_app. right.
      apply in_flat_map. exists r'. rewrite Hi'. split; [exact Hin' | left; reflexivity].
Qed.

(** Witness: with one line per file, lines 0..3 each end up alone in their
    own file; line 2's file holds line 2's record. *)
Lemma persist_flow_run_one_record_per_file_witness :
  LocalStorage.persist_flow_run 2 "flow_artifacts"%string (BlockFacts.line_run 3) =
    Some [LocalStorage.WriteFile "flow_artifacts/000000002_000000003.jsonl"%string
            [LocalStorage.from_flow_run_info (BlockFacts.line_run 3)]] /\
  LocalStorage.fs_get
    (fst (LocalStorage.persist_flow_runs 1 "flow_artifacts"%string (map BlockFacts.line_run [0; 1; 2; 3]) []))
    "flow_artifacts/000000002_000000002.jsonl"%string
  = Some [LocalStorage.from_flow_run_info (BlockFacts.line_run 2)].
Proof.
  destruct persist_flow_run_one_record_per_file as [H1 H2]. split.
  - rewrite (H1 2 "flow_artifacts"%string (BlockFacts.line_run 3) 3 eq_refl eq_refl). reflexivity.
  - apply (H2 "flow_artifacts"%string (map BlockFacts.line_run [0; 1; 2; 3]) [] (BlockFacts.line_run 2) 2).
    + vm_compute. repeat constructor; simpl; intuition discriminate.
    + intros r' n' Hin Hi. simpl in Hin.
      destruct Hin as [<- | [<- | [<- | [<- | []]]]]; injection Hi as <-; lia.
    + simpl. tauto.
    + reflexivity.
    + reflexivity.
Defined.

(** Two non-negative line numbers share a block file of [persist_flow_run]
    exactly when they fall in the same block of [batch_size] lines, that is
    when their quotients by [batch_size] agree; the file of line [l] is
    named [<lower>_<upper>.jsonl] with [lower <= l <= upper]. *)
Theorem block_filename_same_block (batch_size l1 l2 : Z) :
  0 < batch_size -> 0 <= l1 -> 0 <= l2 ->
  (LocalStorage.block_filename batch_size l1 = LocalStorage.block_filename batch_size l2 <->
   l1 / batch_size = l2 / batch_size) /\
  l1 / batch_size * batch_size <= l1 <= l1 / batch_size * batch_size + batch_size - 1.
Proof.
  intros Hb H1 H2. split.
  - split.
    + apply BlockFacts.block_filename_inj; assumption.
    + intros E. unfold LocalStorage.block_filename. rewrite E. reflexivity.
  - pose proof (Z.mul_div_le l1 batch_size Hb).
    pose proof (Z.mod_pos_bound l1 batch_size Hb).
    pose proof (Z.div_mod l1 batch_size). lia.
Qed.

(** Witness: with blocks of 25 lines, lines 3 and 24 share
    [000000000_000000024.jsonl] and line 25 goes to the next file. *)
Lemma block_filename_same_block_witness :
  (LocalStorage.block_filename 25 3 = LocalStorage.block_filename 25 24 <-> 3 / 25 = 24 / 25) /\
  ~ (LocalStorage.block_filename 25 3 = LocalStorage.block_filename 25 25).
Proof.
  split.
  - apply (block_filename_same_block 25 3 24); lia.
  - intros E. apply (proj1 (block_filename_same_block 25 3 25 ltac:(lia) ltac:(lia) ltac:(lia))) in E.
    vm_compute in E. discriminate E.
Defined.

(** After [persist_flow_run] has been called on a sequence of line runs, a
    terminated line run [r] with line number [n >= 0] is the single record
    of its block file as soon as no line run after it falls in the same
    block: its file then holds exactly [[r]'s record], whatever came before.
    With [batch_size = 1] and distinct line numbers this is every line. *)
Theorem persist_flow_runs_last_in_block (batch_size : Z) (folder : string)
  (pre post : list FlowRunInfo.t) (r : FlowRunInfo.t) (n : Z) (m : LocalStorage.fs) :
  0 < batch_size ->
  is_terminated (FlowRunInfo.status r) = true ->
  FlowRunInfo.index r = Some n -> 0 <= n ->
  (forall r' n', In r' post -> FlowRunInfo.index r' = Some n' ->
                 0 <= n' /\ n' / batch_size <> n / batch_size) ->
  LocalStorage.fs_get (fst (LocalStorage.persist_flow_runs batch_size folder (pre ++ r :: post) m))
    (folder ++ "/" ++ LocalStorage.block_filename batch_size n)%string =
  Some [LocalStorage.from_flow_run_info r].
Proof.
  intros Hb Ht Hi Hn Hpost.
  rewrite BlockFacts.persist_flow_runs_app, BlockFacts.persist_flow_runs_cons.
  rewrite BlockFacts.persist_flow_runs_other.
  - rewrite BlockFacts.persist_flow_run_ops, Hi, Ht, BlockFacts.fs_get_set, String.eqb_refl.
    reflexivity.
  - intros r' n' Hin Hi' E. apply StrFacts.append_cancel_l in E.
    destruct (Hpost r' n' Hin Hi') as [Hn' Hne]. apply Hne.
    apply (BlockFacts.block_filename_inj batch_size n' n Hb Hn' Hn).
    injection E as E. exact E.
Qed.

(** Witness: lines 0, 1, 2 persisted one after the other with one line per
    file; line 1's file holds line 1's record. *)
Lemma persist_flow_runs_last_in_block_witness :
  LocalStorage.fs_get
    (fst (LocalStorage.persist_flow_runs 1 "flow_artifacts"
            ([BlockFacts.line_run 0] ++ BlockFacts.line_run 1 :: [BlockFacts.line_run 2]) []))
    ("flow_artifacts" ++ "/" ++ LocalStorage.block_filename 1 1)%string =
  Some [LocalStorage.from_flow_run_info (BlockFacts.line_run 1)].
Proof.
  apply persist_flow_runs_last_in_block; try reflexivity; try lia.
  intros r' n' Hin Hi. destruct Hin as [<- | []]. injection Hi as <-. vm_compute. split; discriminate.
Defined.

(** *** Run status values *)

Module StatusFacts.

Lemma of_value_sound (v : string) (s : Status) : Status_of_value v = Some s -> Status_value s = v.
Proof.
  unfold Status_of_value. intros E. apply find_some in E as [_ E].
  apply String.eqb_eq. exact E.
Qed.

Lemma of_value_value (s : Status) : Status_of_value (Status_value s) = Some s.
Proof. destruct s; reflexivity. Qed.

End StatusFacts.

(** [Status(v)] succeeds exactly on the eight status values and gives back
    the status with that value.  [Status.is_terminated] called with a string
    holds exactly when the string is the value of a terminated status
    (Completed, Failed, Bypassed or Canceled); any other string, including
    one that names no status, is not terminated. *)
Theorem status_value_roundtrip_terminated (v : string) (s : Status) :
  (Status_of_value v = Some s <-> Status_value s = v) /\
  is_terminated_value v = match Status_of_value v with Some t => is_terminated t | None => false end.
Proof.
  split.
  - split; [apply StatusFacts.of_value_sound | intros <-; apply StatusFacts.of_value_value].
  - destruct (Status_of_value v) as [t |] eqn:E.
    + apply StatusFacts.of_value_sound in E. subst v. reflexivity.
    + destruct (is_terminated_value v) eqn:T; [| reflexivity]. exfalso.
      unfold is_terminated_value in T. apply existsb_exists in T as [x [Hx Ex]].
      apply String.eqb_eq in Ex. subst x. simpl in Hx.
      destruct Hx as [<- | [<- | [<- | [<- | []]]]]; vm_compute in E; discriminate E.
Qed.

(** *** Run output paths under the flow directory *)

Module OutputPathFacts.
Import Str RunOutputPath.
Local Open Scope string_scope.

Definition no_slash (s : string) : bool := all_chars (fun c => negb (Ascii.eqb c "/")) s.

(** A path segment that [resolve] keeps as it is. *)
Definition plain_segment (s : string) : bool :=
  negb (String.eqb s "") && negb (String.eqb s ".") && negb (String.eqb s "..") && no_slash s.

Lemma app_empty_r (s : string) : s ++ "" = s.
Proof. induction s as [| c s IH]; simpl; congruence. Qed.

Lemma app_assoc_str (a b c : string) : (a ++ b) ++ c = a ++ b ++ c.
Proof. induction a as [| x a IH]; simpl; congruence. Qed.

Lemma split_aux_no_slash (cur x : string) : no_slash x = true -> split_slash_aux cur x = [cur ++ x].
Proof.
  revert cur. induction x as [| c x IH]; intros cur H; simpl.
  - rewrite app_empty_r. reflexivity.
  - unfold no_slash in H. simpl in H. apply andb_prop in H as [Hc H].
    destruct (Ascii.eqb c "/"); [discriminate Hc |].
    rewrite IH by exact H. rewrite app_assoc_str. reflexivity.
Qed.

Lemma split_aux_seg (cur a x : string) :
  no_slash a = true -> split_slash_aux cur (a ++ "/" ++ x) = (cur ++ a) :: split_slash_aux "" x.
Proof.
  revert cur. induction a as [| c a IH]; intros cur H; simpl.
  - rewrite app_empty_r. reflexivity.
  - unfold no_slash in H. simpl in H. apply andb_prop in H as [Hc H].
    destruct (Ascii.eqb c "/"); [discriminate Hc |].
    rewrite IH by exact H. rewrite app_assoc_str. reflexivity.
Qed.

Lemma split_join (F : list string) (x : string) :
  F <> [] -> Forall (fun s => no_slash s = true) F ->
  split_slash_aux "" (join "/" F ++ String "/" x) = (F ++ split_slash_aux "" x)%list.
Proof.
  change (String "/" x) with ("/" ++ x).
  induction F as [| a F IH]; intros Hne HF; [contradiction Hne; reflexivity |].
  inversion HF as [| ? ? Ha HF']; subst.
  destruct F as [| b F].
  - simpl join. rewrite split_aux_seg by exact Ha. reflexivity.
  - change (join "/" (a :: b :: F)) with (a ++ "/" ++ join "/" (b :: F)).
    rewrite !app_assoc_str, split_aux_seg by exact Ha. simpl (("" ++ a)).
    rewrite IH by (discriminate || exact HF'). reflexivity.
Qed.

Definition step (acc : list string) (seg : string) : list string :=
  if String.eqb seg "" || String.eqb seg "." then acc
  else if String.eqb seg ".." then removelast acc
  else (acc ++ [seg])%list.

Lemma resolve_segs_fold (segs : list string) : resolve_segs segs = fold_left step segs [].
Proof. reflexivity. Qed.

Lemma fold_plain (G acc : list string) :
  Forall (fun s => plain_segment s = true) G -> fold_left step G acc = (acc ++ G)%list.
Proof.
  revert acc. induction G as [| g G IH]; intros acc HG; simpl.
  - rewrite app_nil_r. reflexivity.
  - inversion HG as [| ? ? Hg HG']; subst.
    unfold plain_segment in Hg. apply andb_prop in Hg as [Hg _]. apply andb_prop in Hg as [Hg H2].
    apply andb_prop in Hg as [H0 H1].
    unfold step at 2. apply negb_true_iff in H0, H1, H2. rewrite H0, H1, H2. simpl.
    rewrite IH by exact HG'. rewrite <- app_assoc. reflexivity.
Qed.

Lemma fold_keeps (G acc : list string) :
  Forall (fun s => no_slash s = true) G -> Forall (fun s => plain_segment s = true) acc ->
  Forall (fun s => plain_segment s = true) (fold_left step G acc).
Proof.
  revert acc. induction G as [| g G IH]; intros acc HG Hacc; simpl; [exact Hacc |].
  inversion HG as [| ? ? Hg HG']; subst. apply IH; [exact HG' |].
  unfold step. destruct (String.eqb g "" || String.eqb g ".") eqn:E1; [exact Hacc |].
  destruct (String.eqb g "..") eqn:E2; [apply Forall_removelast; exact Hacc |].
  apply Forall_app. split; [exact Hacc |]. constructor; [| constructor].
  apply orb_false_iff in E1 as [E0 E1].
  unfold plain_segment. rewrite E0, E1, E2, Hg. reflexivity.
Qed.

Lemma plain_no_slash (s : string) : plain_segment s = true -> no_slash s = true.
Proof. unfold plain_segment. intros H. apply andb_prop in H as [_ H]. exact H. Qed.

Lemma join_snoc_longer (F : list string) (c : string) :
  c <> "" -> (String.length (join "/" F) < String.length (join "/" (F ++ [c])))%nat.
Proof.
  intros Hc. induction F as [| a F IH].
  - simpl. destruct c; [contradiction Hc; reflexivity | simpl; lia].
  - destruct F as [| b F].
    + simpl. rewrite ZfillFacts.string_length_app. simpl. lia.
    + change (join "/" (a :: b :: F)) with (a ++ "/" ++ join "/" (b :: F)).
      change (join "/" ((a :: b :: F) ++ [c])) with (a ++ "/" ++ join "/" ((b :: F) ++ [c])).
      rewrite !ZfillFacts.string_length_app. cbn [String.append String.length]. lia.
Qed.

(** [str.replace] leaves a text without [$] as it is. *)
Lemma replace_no_dollar (fuel : nat) (rep t : string) :
  all_chars (fun c => negb (Ascii.eqb c "$")) t = true ->
  replace_fuel fuel FLOW_DIRECTORY_MACRO_IN_CONFIG rep t = t.
Proof.
  revert t. induction fuel as [| fuel IH]; intros t H; [reflexivity |].
  destruct t as [| c t]; [reflexivity |]. simpl in H. apply andb_prop in H as [Hc H].
  assert (P : String.prefix FLOW_DIRECTORY_MACRO_IN_CONFIG (String c t) = false).
  { unfold FLOW_DIRECTORY_MACRO_IN_CONFIG. cbn [String.prefix].
    destruct (ascii_dec "$" c) as [<- | _]; [discriminate Hc | reflexivity]. }
  cbn [replace_fuel]. rewrite P, IH by exact H. reflexivity.
Qed.

Lemma substring_app (a t : string) : substring (String.length a) (String.length t) (a ++ t) = t.
Proof.
  induction a as [| c a IH]; simpl; [| exact IH].
  induction t as [| c t IH]; simpl; congruence.
Qed.

Lemma prefix_app (a t : string) : String.prefix a (a ++ t) = true.
Proof.
  induction a as [| c a IH]; [destruct t; reflexivity |].
  simpl. destruct (ascii_dec c c) as [_ | n]; [exact IH | contradiction n; reflexivity].
Qed.

Lemma replace_macro (rep t : string) :
  all_chars (fun c => negb (Ascii.eqb c "$")) t = true ->
  replace (FLOW_DIRECTORY_MACRO_IN_CONFIG ++ t) FLOW_DIRECTORY_MACRO_IN_CONFIG rep = rep ++ t.
Proof.
  intros H. unfold replace. rewrite ZfillFacts.string_length_app.
  change (String.length FLOW_DIRECTORY_MACRO_IN_CONFIG) with 17%nat.
  change (17 + String.length t)%nat with (S (16 + String.length t)).
  change (FLOW_DIRECTORY_MACRO_IN_CONFIG ++ t) with (String "$" ("{flow_directory}" ++ t)).
  cbn [replace_fuel].
  change (String "$" ("{flow_directory}" ++ t)) with (FLOW_DIRECTORY_MACRO_IN_CONFIG ++ t).
  rewrite prefix_app. f_equal.
  rewrite ZfillFacts.string_length_app.
  change (String.length FLOW_DIRECTORY_MACRO_IN_CONFIG) with 17%nat.
  replace (17 + String.length t - 17)%nat with (String.length t) by lia.
  change 17%nat with (String.length FLOW_DIRECTORY_MACRO_IN_CONFIG) at 1.
  rewrite substring_app. apply replace_no_dollar. exact H.
Qed.

Definition sample_flow : path := ["home"; "user"; ".."; "alice"; "."; "my_flow"].

End OutputPathFacts.

(** With the run output path configured as [${flow_directory}/<child>],
    [child] a plain folder name without [$], a run named [name] (a plain
    segment) is stored in [<child>/<name>] under the resolved flow
    directory once that folder can be created: the macro is replaced by
    the flow directory and the configured path is not the flow directory
    itself, so there is no fallback.  Without a configured path the run
    goes to [<home>/.promptflow/.runs/<name>]. *)
Theorem output_path_under_flow_directory (flow cwd home : RunOutputPath.path) (child name : string)
  (mkdir_ok : RunOutputPath.path -> bool) :
  Forall (fun s => OutputPathFacts.no_slash s = true) flow ->
  OutputPathFacts.plain_segment child = true ->
  Str.all_chars (fun c => negb (Ascii.eqb c "$")) child = true ->
  OutputPathFacts.plain_segment name = true ->
  (mkdir_ok (RunOutputPath.resolve flow ++ [child]) = true ->
   RunOutputPath._generate_output_path
     (Some (RunOutputPath.FLOW_DIRECTORY_MACRO_IN_CONFIG ++ "/" ++ child)%string) flow cwd home name mkdir_ok
   = (RunOutputPath.resolve flow ++ [child; name])%list) /\
  (Forall (fun s => OutputPathFacts.plain_segment s = true) home ->
   RunOutputPath._generate_output_path None flow cwd home name mkdir_ok
   = (home ++ [RunOutputPath.PROMPT_FLOW_DIR_NAME; ".runs"%string; name])%list).
Proof.
  intros Hflow Hchild Hdollar Hname.
  assert (Hn : Str.split_slash name = [name]).
  { unfold Str.split_slash. rewrite OutputPathFacts.split_aux_no_slash
      by (apply OutputPathFacts.plain_no_slash; exact Hname). reflexivity. }
  split.
  - intros Hmk.
    set (F := RunOutputPath.resolve flow) in *.
    assert (HF : Forall (fun s => OutputPathFacts.plain_segment s = true) F)
      by (apply OutputPathFacts.fold_keeps; [exact Hflow | constructor]).
    assert (HFs : Forall (fun s => OutputPathFacts.no_slash s = true) F)
      by (eapply Forall_impl; [apply OutputPathFacts.plain_no_slash | exact HF]).
    assert (Hcs : OutputPathFacts.no_slash child = true) by (apply OutputPathFacts.plain_no_slash; exact Hchild).
    assert (Hp : RunOutputPath.resolve_text cwd
                   (Str.replace (RunOutputPath.FLOW_DIRECTORY_MACRO_IN_CONFIG ++ "/" ++ child)
                      RunOutputPath.FLOW_DIRECTORY_MACRO_IN_CONFIG (RunOutputPath.as_posix F))
                 = (F ++ [child])%list).
    { rewrite OutputPathFacts.replace_macro by (simpl; exact Hdollar).
      unfold RunOutputPath.as_posix. simpl (("/" ++ _)%string).
      unfold RunOutputPath.resolve_text, Str.split_slash. simpl Str.split_slash_aux.
      destruct F as [| a F'] eqn:EF.
      - simpl. rewrite OutputPathFacts.split_aux_no_slash by exact Hcs.
        rewrite OutputPathFacts.resolve_segs_fold. simpl.
        change (OutputPathFacts.step [] child = [child]).
        exact (OutputPathFacts.fold_plain [child] [] (Forall_cons _ Hchild (Forall_nil _))).
      - unfold Str.join_slash. cbn [String.append].
        rewrite OutputPathFacts.split_join by (discriminate || exact HFs).
        rewrite OutputPathFacts.split_aux_no_slash by exact Hcs.
        rewrite OutputPathFacts.resolve_segs_fold.
        change (fold_left OutputPathFacts.step ((a :: F') ++ [child])%list [] = ((a :: F') ++ [child])%list).
        rewrite OutputPathFacts.fold_plain; [reflexivity |].
        apply Forall_app. split; [exact HF |]. constructor; [exact Hchild | constructor]. }
    unfold RunOutputPath._generate_output_path. fold F. rewrite Hp.
    assert (Hne : String.eqb (RunOutputPath.as_posix (F ++ [child])) (RunOutputPath.as_posix F) = false).
    { apply String.eqb_neq. intros E. apply (f_equal String.length) in E.
      unfold RunOutputPath.as_posix in E. simpl in E.
      assert (child <> ""%string) by (intros E0; subst child; discriminate Hchild).
      pose proof (OutputPathFacts.join_snoc_longer F child H). unfold Str.join_slash in E. lia. }
    rewrite Hne, Hmk. unfold RunOutputPath.join_name, RunOutputPath.resolve. rewrite Hn.
    rewrite OutputPathFacts.resolve_segs_fold, OutputPathFacts.fold_plain; [rewrite <- app_assoc; reflexivity |].
    apply Forall_app. split; [apply Forall_app; split; [exact HF | constructor; [exact Hchild | constructor]] |].
    constructor; [exact Hname | constructor].
  - intros Hhome. unfold RunOutputPath._generate_output_path, RunOutputPath.join_name,
      RunOutputPath.resolve, RunOutputPath.default_runs_dir. rewrite Hn.
    rewrite OutputPathFacts.resolve_segs_fold, OutputPathFacts.fold_plain; [rewrite <- app_assoc; reflexivity |].
    repeat (apply Forall_app; split); try exact Hhome; repeat constructor; exact Hname.
Qed.

(** Witness: flow [/home/user/../alice/./my_flow], setting
    [${flow_directory}/.runs], run [r1]. *)
Lemma output_path_under_flow_directory_witness :
  RunOutputPath._generate_output_path
    (Some (RunOutputPath.FLOW_DIRECTORY_MACRO_IN_CONFIG ++ "/" ++ ".runs")%string)
    OutputPathFacts.sample_flow [] ["home"%string; "alice"%string] "r1"%string (fun _ => true)
  = ["home"%string; "alice"%string; "my_flow"%string; ".runs"%string; "r1"%string].
Proof.
  apply (proj1 (output_path_under_flow_directory OutputPathFacts.sample_flow [] ["home"%string; "alice"%string]
                  ".runs"%string "r1"%string (fun _ => true)
                  ltac:(repeat constructor) eq_refl eq_refl eq_refl)).
  reflexivity.
Defined.

(** *** Padding the outputs of failed lines *)

Module OutputsPaddingFacts.
Import OutputsPadding.

Module RowOrder <: Orders.TotalLeBool.
Definition t := row.
Definition leb := le_line.
Lemma leb_total : forall a b, leb a b = true \/ leb b a = true.
Proof. intros a b. unfold leb, le_line. destruct (Z.leb_spec (fst a) (fst b)); [left | right]; lia. Qed.
End RowOrder.

(** A stable merge sort by line number, one of the orders [sort_values]
    may produce. *)
Module RowSort := Sort RowOrder.

Local Open Scope string_scope.

Definition df3 : list row := [(2, [("answer", JStr "c")]); (0, [("answer", JStr "a")])].

End OutputsPaddingFacts.

(** [_outputs_padding(df, inputs_line_numbers)] returns [df] unchanged when
    it has as many rows as there are input lines, even when some input line
    has no row.  Otherwise the result is sorted by line number, keeps every
    row of [df], has a row for every input line number, and every row it
    adds is an empty row (all NaN) for an input line missing from [df]. *)
Theorem outputs_padding_rows (sort_values : list OutputsPadding.row -> list OutputsPadding.row) :
  (forall l, Permutation l (sort_values l)) ->
  (forall l, Sorted (fun a b => OutputsPadding.le_line a b = true) (sort_values l)) ->
  forall (df : list OutputsPadding.row) (inputs_line_numbers : list Z),
  let res := OutputsPadding._outputs_padding sort_values df inputs_line_numbers in
  (length df = length inputs_line_numbers -> res = df) /\
  (length df <> length inputs_line_numbers ->
   Sorted (fun a b => OutputsPadding.le_line a b = true) res /\
   (forall r, In r df -> In r res) /\
   (forall i, In i inputs_line_numbers -> exists r, In r res /\ fst r = i) /\
   (forall r, In r res -> In r df \/
      (snd r = [] /\ In (fst r) inputs_line_numbers /\ ~ In (fst r) (map fst df)))).
Proof.
  intros Hperm Hsorted df inputs res. unfold res, OutputsPadding._outputs_padding. split.
  - intros E. rewrite E, Nat.eqb_refl. reflexivity.
  - intros E. apply Nat.eqb_neq in E. rewrite E.
    set (missing := map (fun i => (i, []))
                      (filter (fun i => negb (existsb (Z.eqb i) (map fst df))) inputs)).
    assert (Hin : forall r, In r (df ++ missing) -> In r (sort_values (df ++ missing)))
      by (intros r Hr; eapply Permutation_in; [apply Hperm | exact Hr]).
    split; [apply Hsorted |]. split; [| split].
    + intros r Hr. apply Hin, in_or_app. left. exact Hr.
    + intros i Hi. destruct (existsb (Z.eqb i) (map fst df)) eqn:Ex.
      * apply existsb_exists in Ex as [x [Hx Ex]]. apply Z.eqb_eq in Ex. subst x.
        apply in_map_iff in Hx as [r [Er Hr]]. exists r. split; [| exact Er].
        apply Hin, in_or_app. left. exact Hr.
      * exists (i, []). split; [| reflexivity]. apply Hin, in_or_app. right.
        apply (in_map (fun i : Z => (i, @nil (string * json)))). apply filter_In. rewrite Ex. auto.
    + intros r Hr. apply (Permutation_in _ (Permutation_sym (Hperm _))) in Hr.
      apply in_app_or in Hr as [Hr | Hr]; [left; exact Hr | right].
      unfold missing in Hr. apply in_map_iff in Hr as [i [<- Hi]].
      apply filter_In in Hi as [Hi Hn]. simpl. split; [reflexivity | split; [exact Hi |]].
      intros Hd. apply negb_true_iff in Hn.
      assert (Ht : existsb (Z.eqb i) (map fst df) = true)
        by (apply existsb_exists; exists i; split; [exact Hd | apply Z.eqb_refl]).
      congruence.
Qed.

(** Witness: rows for lines 2 and 0 of the inputs 0, 1, 2, sorted by the
    merge sort: line 1 gets a row, the empty row placed between the two. *)
Lemma outputs_padding_rows_witness :
  (exists r, In r (OutputsPadding._outputs_padding OutputsPaddingFacts.RowSort.sort
                     OutputsPaddingFacts.df3 [0; 1; 2]) /\ fst r = 1) /\
  OutputsPadding._outputs_padding OutputsPaddingFacts.RowSort.sort OutputsPaddingFacts.df3 [0; 1; 2] =
  [(0, [("answer"%string, JStr "a"%string)]); (1, []); (2, [("answer"%string, JStr "c"%string)])].
Proof.
  split; [| vm_compute; reflexivity].
  apply (proj1 (proj2 (proj2 (proj2 (outputs_padding_rows OutputsPaddingFacts.RowSort.sort
           OutputsPaddingFacts.RowSort.Permuted_sort OutputsPaddingFacts.RowSort.Sorted_sort
           OutputsPaddingFacts.df3 [0; 1; 2]) ltac:(discriminate))))).
  simpl. auto.
Defined.

(** *** Record file names sort in line order *)

Module FileOrder.
Import Str.
Local Open Scope string_scope.

Definition dval (c : ascii) : Z := Z.of_N (N_of_ascii c) - 48.

(** The number a string of decimal digits spells. *)
Fixpoint val (s : string) : Z :=
  match s with
  | EmptyString => 0
  | String c s' => dval c * 10 ^ Z.of_nat (String.length s') + val s'
  end.

Fixpoint uval (u : Decimal.uint) (a : Z) : Z :=
  match u with
  | Decimal.Nil => a
  | Decimal.D0 u => uval u (10 * a)
  | Decimal.D1 u => uval u (10 * a + 1)
  | Decimal.D2 u => uval u (10 * a + 2)
  | Decimal.D3 u => uval u (10 * a + 3)
  | Decimal.D4 u => uval u (10 * a + 4)
  | Decimal.D5 u => uval u (10 * a + 5)
  | Decimal.D6 u => uval u (10 * a + 6)
  | Decimal.D7 u => uval u (10 * a + 7)
  | Decimal.D8 u => uval u (10 * a + 8)
  | Decimal.D9 u => uval u (10 * a + 9)
  end.

Lemma uval_acc (l : Decimal.uint) (acc : positive) : Z.pos (Pos.of_uint_acc l acc) = uval l (Z.pos acc).
Proof. revert acc. induction l; intros acc; cbn [Pos.of_uint_acc uval]; rewrite ?IHl; try reflexivity; f_equal; lia. Qed.

Lemma of_uint_uval (u : Decimal.uint) : Z.of_uint u = uval u 0.
Proof.
  unfold Z.of_uint. induction u; simpl; rewrite ?uval_acc; try reflexivity.
  exact IHu.
Qed.

Lemma uval_string (u : Decimal.uint) (a : Z) :
  uval u a = a * 10 ^ Z.of_nat (String.length (string_of_uint u)) + val (string_of_uint u).
Proof.
  revert a. induction u; intros a; cbn [uval string_of_uint val String.length];
    [simpl; lia | ..];
    rewrite IHu; unfold dval; cbn [N_of_ascii N_of_digits N.add N.mul];
    rewrite Nat2Z.inj_succ, Z.pow_succ_r by lia; lia.
Qed.

Lemma val_app (a b : string) : val (a ++ b) = val a * 10 ^ Z.of_nat (String.length b) + val b.
Proof.
  induction a as [| c a IH]; simpl; [reflexivity |].
  rewrite IH, ZfillFacts.string_length_app, Nat2Z.inj_add, Z.pow_add_r by lia. lia.
Qed.

Lemma val_zeros (k : nat) : val (ZfillFacts.zeros k) = 0.
Proof. induction k as [| k IH]; [reflexivity |]. simpl. unfold ZfillFacts.zeros in IH. rewrite IH. reflexivity. Qed.

Lemma str_Z_pos (n : Z) : 0 <= n -> exists u, Z.to_int n = Decimal.Pos u /\ str_Z n = string_of_uint u.
Proof.
  intros Hn. destruct n; [eexists; split; reflexivity | eexists; split; reflexivity | lia].
Qed.

Lemma val_str_Z (n : Z) : 0 <= n -> val (str_Z n) = n.
Proof.
  intros Hn. destruct (str_Z_pos n Hn) as [u [Hu ->]].
  pose proof (uval_string u 0) as H. rewrite Z.mul_0_l, Z.add_0_l in H. rewrite <- H, <- of_uint_uval.
  change (Z.of_uint u) with (Z.of_int (Decimal.Pos u)). rewrite <- Hu. apply DecimalZ.of_to.
Qed.

Lemma val_zfill (n : Z) (w : nat) : 0 <= n -> val (zfill (str_Z n) w) = n.
Proof.
  intros Hn. destruct (str_Z_pos n Hn) as [u [_ Hs]].
  rewrite ZfillFacts.zfill_digits by (rewrite Hs; apply StrFacts.digits_string_of_uint).
  rewrite val_app, val_zeros. rewrite Z.mul_0_l, Z.add_0_l. apply val_str_Z, Hn.
Qed.

Lemma digits_zfill (n : Z) (w : nat) : 0 <= n -> all_chars is_digit (zfill (str_Z n) w) = true.
Proof.
  intros Hn. destruct (str_Z_pos n Hn) as [u [_ Hs]].
  rewrite ZfillFacts.zfill_digits by (rewrite Hs; apply StrFacts.digits_string_of_uint).
  rewrite ZfillFacts.all_chars_app, ZfillFacts.all_digits_zeros, Hs, StrFacts.digits_string_of_uint.
  reflexivity.
Qed.

Lemma dval_bound (c : ascii) : is_digit c = true -> 0 <= dval c <= 9.
Proof.
  unfold is_digit, dval, nat_of_ascii. intros H. apply andb_prop in H as [H1 H2].
  apply Nat.leb_le in H1, H2. lia.
Qed.

Lemma val_bound (s : string) : all_chars is_digit s = true -> 0 <= val s < 10 ^ Z.of_nat (String.length s).
Proof.
  induction s as [| c s IH]; intros H; cbn [val String.length]; [simpl; lia |].
  simpl in H. apply andb_prop in H as [Hc H]. specialize (IH H). apply dval_bound in Hc.
  rewrite Nat2Z.inj_succ, Z.pow_succ_r by lia. nia.
Qed.

(** Lexicographic order on digit strings of one length is numeric order. *)
Lemma compare_val (s t : string) :
  all_chars is_digit s = true -> all_chars is_digit t = true -> String.length s = String.length t ->
  String.compare s t = Z.compare (val s) (val t).
Proof.
  revert t. induction s as [| c s IH]; intros t Hs Ht Hl; destruct t as [| c' t]; try discriminate Hl.
  - reflexivity.
  - simpl in Hs, Ht, Hl. injection Hl as Hl.
    apply andb_prop in Hs as [Hc Hs]. apply andb_prop in Ht as [Hc' Ht].
    pose proof (val_bound s Hs). pose proof (val_bound t Ht).
    apply dval_bound in Hc. apply dval_bound in Hc'.
    cbn [String.compare val]. rewrite <- Hl in H0 |- *. unfold Ascii.compare.
    set (P := 10 ^ Z.of_nat (String.length s)) in *.
    assert (HP : 0 < P) by (unfold P; apply Z.pow_pos_nonneg; lia).
    unfold dval in *.
    destruct (N.compare_spec (N_of_ascii c) (N_of_ascii c')) as [E | E | E].
    + assert (c = c') as <- by (rewrite <- (ascii_N_embedding c), <- (ascii_N_embedding c'), E; reflexivity).
      rewrite (IH t Hs Ht Hl). symmetry.
      destruct (Z.compare_spec (val s) (val t)); [apply Z.compare_eq_iff | apply Z.compare_lt_iff | apply Z.compare_gt_iff]; lia.
    + symmetry. apply Z.compare_lt_iff. nia.
    + symmetry. apply Z.compare_gt_iff. nia.
Qed.

Lemma compare_app (a a' b b' : string) :
  String.length a = String.length a' ->
  String.compare (a ++ b) (a' ++ b') =
  match String.compare a a' with Eq => String.compare b b' | r => r end.
Proof.
  revert a'. induction a as [| c a IH]; intros a' Hl; destruct a' as [| c' a']; try discriminate Hl.
  - reflexivity.
  - simpl in Hl. injection Hl as Hl. cbn [String.append String.compare].
    destruct (Ascii.compare c c'); [apply IH, Hl | reflexivity | reflexivity].
Qed.

(** [str(p)] has no leading zero. *)
Lemma to_uint_head (p : positive) :
  Pos.to_uint p = Decimal.D0 Decimal.Nil \/ forall x, Pos.to_uint p <> Decimal.D0 x.
Proof.
  assert (E : Pos.to_uint p = Decimal.unorm (Pos.to_uint p)).
  { rewrite <- DecimalPos.Unsigned.to_of, DecimalPos.Unsigned.of_to. reflexivity. }
  destruct (Pos.to_uint p) as [| x | | | | | | | | |] eqn:D; try (right; intros ? H; discriminate H).
  unfold Decimal.unorm in E. simpl Decimal.nzhead in E.
  destruct (Decimal.nzhead x) eqn:Z; [left; exact E | ..];
    exfalso; pose proof (DecimalFacts.nb_digits_nzhead x) as L; rewrite Z in L;
    rewrite <- E in L; simpl in L; lia.
Qed.

Lemma str_Z_length (n : Z) (k : nat) :
  0 <= n < 10 ^ Z.of_nat k -> (1 <= k)%nat -> (String.length (str_Z n) <= k)%nat.
Proof.
  intros Hn Hk. destruct n as [| p | p]; [simpl; lia | | lia].
  unfold str_Z. simpl Z.to_int.
  pose proof (val_str_Z (Z.pos p) ltac:(lia)) as V. unfold str_Z in V. simpl Z.to_int in V.
  destruct (to_uint_head p) as [E | E].
  - rewrite E. simpl. lia.
  - destruct (Pos.to_uint p) eqn:D;
      [exfalso; exact (DecimalPos.Unsigned.to_uint_nonnil p D) | exfalso; exact (E u eq_refl) | ..];
      cbn [string_of_uint val String.length] in V |- *;
      unfold dval in V; cbn [N_of_ascii N_of_digits N.add N.mul] in V;
      pose proof (val_bound (string_of_uint u) (StrFacts.digits_string_of_uint u));
      set (m := String.length (string_of_uint u)) in *;
      (destruct (Nat.le_gt_cases (S m) k) as [L | L]; [exact L | exfalso]);
      assert (10 ^ Z.of_nat k <= 10 ^ Z.of_nat m) by (apply Z.pow_le_mono_r; lia); nia.
Qed.

Lemma zeros_length (k : nat) : String.length (ZfillFacts.zeros k) = k.
Proof. induction k as [| k IH]; [reflexivity |]. simpl. unfold ZfillFacts.zeros in IH. rewrite IH. reflexivity. Qed.

Lemma zfill_length (n : Z) : 0 <= n < 10 ^ 9 -> String.length (zfill (str_Z n) 9) = 9%nat.
Proof.
  intros Hn. pose proof (str_Z_length n 9 Hn ltac:(lia)) as L.
  destruct (str_Z_pos n ltac:(lia)) as [u [_ Hs]].
  rewrite ZfillFacts.zfill_digits by (rewrite Hs; apply StrFacts.digits_string_of_uint).
  rewrite ZfillFacts.string_length_app, zeros_length. lia.
Qed.

Lemma compare_refl (s : string) : String.compare s s = Eq.
Proof.
  induction s as [| c s IH]; [reflexivity |]. cbn [String.compare].
  unfold Ascii.compare. rewrite N.compare_refl. exact IH.
Qed.

Lemma compare_zfill (a b : Z) :
  0 <= a < 10 ^ 9 -> 0 <= b < 10 ^ 9 ->
  String.compare (zfill (str_Z a) 9) (zfill (str_Z b) 9) = Z.compare a b.
Proof.
  intros Ha Hb. rewrite compare_val.
  - rewrite !val_zfill by lia. reflexivity.
  - apply digits_zfill. lia.
  - apply digits_zfill. lia.
  - rewrite !zfill_length by lia. reflexivity.
Qed.

Definition jsonl (n : Z) : string := zfill (str_Z n) 9 ++ ".jsonl".

End FileOrder.

(** The record files are read back in [sorted(...iterdir())] order
    ([load_detail], [_collect_io_from_debug_info]), and Python orders
    names as strings.  The zero padding makes that line order: for line
    numbers below [10^9], the file [persist_node_run] writes for line [a]
    compares to the one for line [b] as [a] to [b], and the block file
    [persist_flow_run] writes for line [a] compares to the one for line
    [b] as their block indices [a // batch_size] and [b // batch_size]. *)
Theorem record_files_sort_by_line :
  (forall a b : Z, 0 <= a < 10 ^ 9 -> 0 <= b < 10 ^ 9 ->
   String.compare (Str.zfill (Str.str_Z a) LocalStorage.LINE_NUMBER_WIDTH ++ ".jsonl")
                  (Str.zfill (Str.str_Z b) LocalStorage.LINE_NUMBER_WIDTH ++ ".jsonl") = Z.compare a b) /\
  (forall batch_size a b : Z, 0 < batch_size -> 0 <= a -> 0 <= b ->
   a / batch_size * batch_size + batch_size - 1 < 10 ^ 9 ->
   b / batch_size * batch_size + batch_size - 1 < 10 ^ 9 ->
   String.compare (LocalStorage.block_filename batch_size a) (LocalStorage.block_filename batch_size b)
   = Z.compare (a / batch_size) (b / batch_size)).
Proof.
  split.
  - intros a b Ha Hb. rewrite FileOrder.compare_app by (rewrite !FileOrder.zfill_length by lia; reflexivity).
    change LocalStorage.LINE_NUMBER_WIDTH with 9%nat.
    rewrite FileOrder.compare_zfill by lia.
    destruct (Z.compare a b); [apply FileOrder.compare_refl | reflexivity | reflexivity].
  - intros B a b HB Ha Hb Ua Ub.
    pose proof (BlockFacts.lower_bound_nonneg B a HB Ha).
    pose proof (BlockFacts.lower_bound_nonneg B b HB Hb).
    unfold LocalStorage.block_filename. change LocalStorage.LINE_NUMBER_WIDTH with 9%nat.
    rewrite FileOrder.compare_app by (rewrite !FileOrder.zfill_length by lia; reflexivity).
    rewrite FileOrder.compare_zfill by lia.
    destruct (Z.compare_spec (a / B) (b / B)) as [E | E | E].
    + rewrite E, Z.compare_refl. apply FileOrder.compare_refl.
    + assert (L : a / B * B < b / B * B) by nia. apply Z.compare_lt_iff in L. rewrite L. reflexivity.
    + assert (L : b / B * B < a / B * B) by nia.
      rewrite (proj2 (Z.compare_gt_iff (a / B * B) (b / B * B)) L). reflexivity.
Qed.

(** Witness: line 9 sorts before line 10 (unpadded, ["9"] would sort
    after ["10"]), and with blocks of 25 lines, line 24 before line 30. *)
Lemma record_files_sort_by_line_witness :
  String.compare (Str.zfill (Str.str_Z 9) LocalStorage.LINE_NUMBER_WIDTH ++ ".jsonl")
                 (Str.zfill (Str.str_Z 10) LocalStorage.LINE_NUMBER_WIDTH ++ ".jsonl") = Lt /\
  String.compare (LocalStorage.block_filename 25 24) (LocalStorage.block_filename 25 30) = Lt.
Proof.
  split.
  - rewrite (proj1 record_files_sort_by_line 9 10) by (simpl; lia). reflexivity.
  - rewrite (proj2 record_files_sort_by_line 25 24 30) by (simpl; lia). reflexivity.
Defined.

(** *** Round trip of run records through the serializer *)

Module DateFacts.
Import Str DateTime.
Local Open Scope string_scope.

Lemma str_app_assoc (a b c : string) : (a ++ b) ++ c = a ++ b ++ c.
Proof. induction a as [| x a IH]; simpl; congruence. Qed.

Lemma pad_digits (w : nat) (n : Z) : 0 <= n -> all_chars is_digit (pad w n) = true.
Proof. intros Hn. apply FileOrder.digits_zfill. exact Hn. Qed.

Lemma pad_length (w : nat) (n : Z) :
  (1 <= w)%nat -> 0 <= n < 10 ^ Z.of_nat w -> String.length (pad w n) = w.
Proof.
  intros Hw Hn. pose proof (FileOrder.str_Z_length n w Hn Hw) as L.
  destruct (FileOrder.str_Z_pos n ltac:(lia)) as [u [_ Hs]]. unfold pad.
  rewrite ZfillFacts.zfill_digits by (rewrite Hs; apply StrFacts.digits_string_of_uint).
  rewrite ZfillFacts.string_length_app, FileOrder.zeros_length. lia.
Qed.

Lemma take_digits_app (a r : string) :
  all_chars is_digit a = true -> take_digits (String.length a) (a ++ r) = Some (a, r).
Proof.
  induction a as [| c a IH]; intros H; [reflexivity |].
  cbn [String.length take_digits append]. cbn [all_chars] in H.
  apply andb_prop in H as [Hc Ha]. rewrite Hc, IH by exact Ha. reflexivity.
Qed.

Lemma take_num_pad (w : nat) (n : Z) (r : string) :
  (1 <= w)%nat -> 0 <= n < 10 ^ Z.of_nat w -> take_num w (pad w n ++ r) = Some (n, r).
Proof.
  intros Hw Hn. unfold take_num.
  rewrite <- (pad_length w n Hw Hn) at 1.
  rewrite take_digits_app by (apply pad_digits; lia). cbn [bind].
  unfold pad. rewrite ZfillFacts.parse_zfill by lia. reflexivity.
Qed.

Lemma expect_cons (c : ascii) (r : string) : expect c (String c r) = Some r.
Proof. unfold expect. rewrite Ascii.eqb_refl. reflexivity. Qed.

(** The optional fraction: a text not starting with [.] has none. *)
Lemma fraction_none (z : string) :
  (forall r, z <> String "." r) ->
  match z with String "." s' => take_num 6 s' | _ => Some (0, z) end = Some (0, z).
Proof.
  intros H. destruct z as [| c r]; [reflexivity |].
  destruct (ascii_dec c ".") as [-> | Hne]; [exfalso; exact (H r eq_refl) |].
  destruct c as [[] [] [] [] [] [] [] []]; try reflexivity; exfalso; apply Hne; reflexivity.
Qed.

Lemma format_offset_not_dot (off : option Z) (r : string) :
  _format_offset off ++ "Z" <> String "." r.
Proof.
  destruct off as [o |]; [| discriminate].
  unfold _format_offset. cbv zeta. destruct (o <? 0)%Z; discriminate.
Qed.

Lemma bind_pad (w : nat) (n : Z) (r : string) {B} (f : Z * string -> option B) :
  (1 <= w)%nat -> 0 <= n < 10 ^ Z.of_nat w -> bind (take_num w (pad w n ++ r)) f = f (n, r).
Proof. intros Hw Hn. rewrite take_num_pad by assumption. reflexivity. Qed.

Lemma bind_expect (c : ascii) (r : string) {B} (f : string -> option B) :
  bind (expect c (String c r)) f = f r.
Proof. rewrite expect_cons. reflexivity. Qed.

Ltac field_bounds H :=
  repeat match type of H with
  | (_ && _)%bool = true => apply andb_prop in H as [H ?]
  end.

(** [parser.parse] of what the serializer writes for a datetime: its
    fields, with the zone the parser reads after them. *)
Lemma parse_serialize (d : datetime) :
  valid_fields d = true ->
  parse (DateTime.serialize d) =
  bind (parse_zone (_format_offset d.(tzinfo) ++ "Z"))
       (fun tz => Some (mkDatetime d.(year) d.(month) d.(day) d.(hour) d.(minute)
                                   d.(second) d.(microsecond) tz)).
Proof.
  intros Hv. pose proof Hv as Hv'.
  destruct d as [y mo dd h mi se us tz]. unfold valid_fields in Hv. cbn [year month day hour minute second microsecond tzinfo] in *.
  field_bounds Hv. rewrite ?Z.leb_le in *.
  assert (Hdm : days_in_month y mo <= 31).
  { unfold days_in_month. destruct (mo =? 2)%Z; [destruct (is_leap y) |]; [lia | lia |].
    destruct (existsb _ _); lia. }
  unfold DateTime.serialize, isoformat. rewrite !str_app_assoc. unfold parse.
  cbn [year month day hour minute second microsecond tzinfo].
  rewrite bind_pad by (simpl; lia). cbn [append]. rewrite bind_expect.
  rewrite bind_pad by (simpl; lia). cbn [append]. rewrite bind_expect.
  rewrite bind_pad by (simpl; lia). cbn [append]. rewrite bind_expect.
  rewrite bind_pad by (simpl; lia). cbn [append]. rewrite bind_expect.
  rewrite bind_pad by (simpl; lia). cbn [append]. rewrite bind_expect.
  rewrite bind_pad by (simpl; lia).
  destruct (us =? 0)%Z eqn:Eus.
  - apply Z.eqb_eq in Eus. subst us. cbn [append].
    rewrite fraction_none by apply format_offset_not_dot. cbn [bind].
    destruct (parse_zone _) as [tz' |]; cbn [bind]; [| reflexivity].
    match goal with |- context [valid_fields ?x] =>
      replace (valid_fields x) with true by (symmetry; exact Hv') end.
    reflexivity.
  - cbn [append]. rewrite take_num_pad by (simpl; lia). cbn [bind].
    destruct (parse_zone _) as [tz' |]; cbn [bind]; [| reflexivity].
    match goal with |- context [valid_fields ?x] =>
      replace (valid_fields x) with true by (symmetry; exact Hv') end.
    reflexivity.
Qed.

Lemma parse_zone_utc : parse_zone (_format_offset None ++ "Z") = Some (Some 0).
Proof. reflexivity. Qed.

(** After a numeric offset the [Z] makes the parser raise. *)
Lemma parse_zone_offset (o : Z) :
  -86400000000 < o < 86400000000 -> parse_zone (_format_offset (Some o) ++ "Z") = None.
Proof.
  intros Ho. unfold _format_offset. cbv zeta.
  assert (Hh : 0 <= Z.abs o / 3600000000 < 10 ^ Z.of_nat 2)
    by (split; [apply Z.div_pos; lia | apply Z.div_lt_upper_bound; simpl; lia]).
  assert (Hm : 0 <= Z.abs o mod 3600000000 / 60000000 < 10 ^ Z.of_nat 2).
  { pose proof (Z.mod_pos_bound (Z.abs o) 3600000000 ltac:(lia)).
    split; [apply Z.div_pos; lia | apply Z.div_lt_upper_bound; simpl; lia]. }
  set (hh := Z.abs o / 3600000000) in *.
  set (mm := Z.abs o mod 3600000000 / 60000000) in *.
  set (tail := if (Z.abs o mod 60000000 =? 0)%Z then "" else _). clearbody tail.
  rewrite !str_app_assoc.
  assert (Hne : exists c r, tail ++ "Z" = String c r)
    by (destruct tail as [| c r]; eexists; eexists; reflexivity).
  destruct Hne as [c [r E]].
  destruct (o <? 0)%Z; cbn [append]; unfold parse_zone; cbn [Ascii.eqb Bool.eqb orb];
    rewrite bind_pad by lia; cbn [append]; rewrite bind_expect;
    rewrite bind_pad by lia; rewrite E; reflexivity.
Qed.

Lemma valid_offset (d : datetime) (o : Z) :
  valid d = true -> d.(tzinfo) = Some o -> -86400000000 < o < 86400000000.
Proof.
  unfold valid. intros H Ht. rewrite Ht in H. apply andb_prop in H as [_ H].
  apply andb_prop in H as [H1 H2]. apply Z.ltb_lt in H1, H2. lia.
Qed.

Lemma valid_fields_of (d : datetime) : valid d = true -> valid_fields d = true.
Proof. unfold valid. intros H. apply andb_prop in H as [H _]. exact H. Qed.

(** [parser.parse(...).replace(tzinfo=None)] on the serializer's text:
    a naive datetime comes back as it was, an aware one raises. *)
Lemma as_naive_time_naive (d : datetime) :
  valid d = true -> d.(tzinfo) = None ->
  JsonGet.as_naive_time (JStr (DateTime.serialize d)) = Some d.
Proof.
  intros Hv Ht. unfold JsonGet.as_naive_time.
  rewrite parse_serialize by (apply valid_fields_of; exact Hv). rewrite Ht, parse_zone_utc.
  destruct d; cbn in Ht |- *. subst. reflexivity.
Qed.

Lemma as_naive_time_aware (d : datetime) (o : Z) :
  valid d = true -> d.(tzinfo) = Some o ->
  JsonGet.as_naive_time (JStr (DateTime.serialize d)) = None.
Proof.
  intros Hv Ht. unfold JsonGet.as_naive_time.
  rewrite parse_serialize by (apply valid_fields_of; exact Hv). rewrite Ht.
  rewrite parse_zone_offset by (exact (valid_offset d o Hv Ht)). reflexivity.
Qed.

Lemma as_opt_Z_of (o : option Z) : JsonGet.as_opt_Z (JsonGet.of_opt_Z o) = Some o.
Proof. destruct o; reflexivity. Qed.

Lemma as_opt_str_of (o : option string) : JsonGet.as_opt_str (JsonGet.of_opt_str o) = Some o.
Proof. destruct o; reflexivity. Qed.

Lemma as_naive_time_cases (d : datetime) :
  valid d = true ->
  (d.(tzinfo) = None /\ JsonGet.as_naive_time (JStr (DateTime.serialize d)) = Some d) \/
  (d.(tzinfo) <> None /\ JsonGet.as_naive_time (JStr (DateTime.serialize d)) = None).
Proof.
  intros Hv. destruct (tzinfo d) as [o |] eqn:Ht.
  - right. split; [discriminate | exact (as_naive_time_aware d o Hv Ht)].
  - left. split; [reflexivity | exact (as_naive_time_naive d Hv Ht)].
Qed.

End DateFacts.

Module RunInfoExamples.
Local Open Scope string_scope.

Definition naive : DateTime.datetime := DateTime.mkDatetime 2023 6 1 12 0 1 0 None.

(** The same wall clock in UTC+01:00. *)
Definition aware : DateTime.datetime := DateTime.mkDatetime 2023 6 1 12 0 1 0 (Some 3600000000).

Definition sample (start : DateTime.datetime) : RunInfo.t :=
  RunInfo.mk "n" "flow_run" "flow_run_n_0" Completed (JObj [("x", JNum 1)]) (JNum 1) JNull JNull
             "flow_run" start (DateTime.mkDatetime 2023 6 1 12 0 2 500 None) (Some 0) JNull ""
             None None JNull JNull JNull.

Definition flow_sample : FlowRunInfo.t :=
  FlowRunInfo.mk "flow_run_0" Completed JNull (JObj [("x", JNum 1)]) (JNum 1) JNull JNull
                 "flow_run" "flow_run" "flow_run" "flow" naive
                 (DateTime.mkDatetime 2023 6 1 12 0 2 500 None) (Some 0) JNull "" "" "" JNull JNull
                 JNull false.

Definition fields (j : json) : list (string * json) := match j with JObj d => d | _ => [] end.

End RunInfoExamples.

(** C9 (counterexample): a [RunInfo] whose [start_time] is timezone-aware
    (UTC+01:00) is serialized with the text ["2023-06-01T12:00:01+01:00Z"]
    ([isoformat()] followed by ["Z"]), and [RunInfo.deserialize] raises on
    it: it does not come back as an equivalent object. *)
Lemma run_info_roundtrip_aware_raises :
  DateTime.valid RunInfoExamples.aware = true /\
  Json.get (RunInfoExamples.fields (RunInfo.serialize (RunInfoExamples.sample RunInfoExamples.aware)))
    "start_time" JNull = JStr "2023-06-01T12:00:01+01:00Z"%string /\
  RunInfo.deserialize (RunInfo.serialize (RunInfoExamples.sample RunInfoExamples.aware)) = None.
Proof. vm_compute. repeat split; reflexivity. Qed.

(** C9 (amended): for a [RunInfo] or [FlowRunInfo] whose [start_time] and
    [end_time] are naive datetimes, deserializing its serialization gives
    back the same object; when either of them is timezone-aware, the
    serialized text is its offset followed by ["Z"], which the parser
    refuses, and [deserialize] raises. *)
Theorem run_info_roundtrip_naive :
  (forall r : RunInfo.t,
     DateTime.valid (RunInfo.start_time r) = true -> DateTime.valid (RunInfo.end_time r) = true ->
     (DateTime.tzinfo (RunInfo.start_time r) = None -> DateTime.tzinfo (RunInfo.end_time r) = None ->
      RunInfo.deserialize (RunInfo.serialize r) = Some r) /\
     (DateTime.tzinfo (RunInfo.start_time r) <> None \/ DateTime.tzinfo (RunInfo.end_time r) <> None ->
      RunInfo.deserialize (RunInfo.serialize r) = None)) /\
  (forall r : FlowRunInfo.t,
     DateTime.valid (FlowRunInfo.start_time r) = true -> DateTime.valid (FlowRunInfo.end_time r) = true ->
     (DateTime.tzinfo (FlowRunInfo.start_time r) = None -> DateTime.tzinfo (FlowRunInfo.end_time r) = None ->
      FlowRunInfo.deserialize (FlowRunInfo.serialize r) = Some r) /\
     (DateTime.tzinfo (FlowRunInfo.start_time r) <> None \/ DateTime.tzinfo (FlowRunInfo.end_time r) <> None ->
      FlowRunInfo.deserialize (FlowRunInfo.serialize r) = None)).
Proof.
  split.
  - intros r Hs He. destruct r as [node frid rid status inputs output metrics error prid st et index
                                     api vid crid cfrid logs sm result].
    cbn [RunInfo.start_time RunInfo.end_time] in *.
    unfold RunInfo.serialize, RunInfo.deserialize.
    cbn -[DateTime.serialize Status_of_value Status_value JsonGet.as_naive_time JsonGet.as_opt_Z
          JsonGet.of_opt_Z JsonGet.as_opt_str JsonGet.of_opt_str].
    rewrite StatusFacts.of_value_value, DateFacts.as_opt_Z_of, !DateFacts.as_opt_str_of.
    destruct (DateFacts.as_naive_time_cases st Hs) as [[Ts Ps] | [Ts Ps]];
    destruct (DateFacts.as_naive_time_cases et He) as [[Te Pe] | [Te Pe]];
      rewrite Ps; try rewrite Pe; split; intros H; try reflexivity;
      try (exfalso; tauto); try (destruct H; contradiction).
  - intros r Hs He. destruct r as [rid status error inputs output metrics request prid rrid srid fid st et
                                     index api vid name desc tags sm result um].
    cbn [FlowRunInfo.start_time FlowRunInfo.end_time] in *.
    unfold FlowRunInfo.serialize, FlowRunInfo.deserialize.
    cbn -[DateTime.serialize Status_of_value Status_value JsonGet.as_naive_time JsonGet.as_opt_Z
          JsonGet.of_opt_Z JsonGet.as_opt_str JsonGet.of_opt_str].
    rewrite StatusFacts.of_value_value, DateFacts.as_opt_Z_of.
    destruct (DateFacts.as_naive_time_cases st Hs) as [[Ts Ps] | [Ts Ps]];
    destruct (DateFacts.as_naive_time_cases et He) as [[Te Pe] | [Te Pe]];
      rewrite Ps; try rewrite Pe; split; intros H; try reflexivity;
      try (exfalso; tauto); try (destruct H; contradiction).
Qed.

(** Witness: a naive [RunInfo] and a naive [FlowRunInfo] come back as
    they were; the [RunInfo] with an aware [start_time] raises. *)
Lemma run_info_roundtrip_naive_witness :
  RunInfo.deserialize (RunInfo.serialize (RunInfoExamples.sample RunInfoExamples.naive))
    = Some (RunInfoExamples.sample RunInfoExamples.naive) /\
  FlowRunInfo.deserialize (FlowRunInfo.serialize RunInfoExamples.flow_sample)
    = Some RunInfoExamples.flow_sample /\
  RunInfo.deserialize (RunInfo.serialize (RunInfoExamples.sample RunInfoExamples.aware)) = None.
Proof.
  destruct run_info_roundtrip_naive as [H1 H2].
  split; [| split].
  - apply (H1 (RunInfoExamples.sample RunInfoExamples.naive)); reflexivity.
  - apply (H2 RunInfoExamples.flow_sample); reflexivity.
  - apply (H1 (RunInfoExamples.sample RunInfoExamples.aware)); [reflexivity | reflexivity |].
    left. discriminate.
Defined.
